(** * riko / pipe2py: tail, uniq, datebuilder and rssitembuilder pipes

    A shallow embedding of the four pipe modules of the repository
    (riko/modules/pipetail.py, pipe2py/modules/pipeuniq.py,
    pipe2py/modules/pipedatebuilder.py,
    pipe2py/modules/piperssitembuilder.py) together with the parts of
    the Python runtime they rely on, and the properties of the pipes. *)

From Stdlib Require Import Ascii String ZArith Lia.
From stdpp Require Import base strings gmap list.

Set Warnings "-register-all,-clear-no-such-hyp".

Local Open Scope string_scope.
Local Open Scope list_scope.
Local Open Scope Z_scope.

(** ** Python runtime *)

Module Py.

(** The exceptions the modelled code can raise. *)
Inductive exn :=
  | AttributeError
  | KeyError
  | TypeError
  | ValueError
  | OverflowError.

(** A call either returns or raises. *)
Inductive result (A : Type) :=
  | Ok (a : A)
  | Raise (e : exn).
Arguments Ok {A} a.
Arguments Raise {A} e.

#[global] Instance result_ret : MRet result := λ A a, Ok a.
#[global] Instance result_bind : MBind result := λ A B k r,
  match r with
  | Ok a => k a
  | Raise e => Raise e
  end.

#[global] Instance result_fmap : FMap result := λ A B f r,
  match r with
  | Ok a => Ok (f a)
  | Raise e => Raise e
  end.

(** What a generator gave before it stopped, and the exception that
    stopped it, if one did. *)
Record trace (A : Type) := Trace { yielded : list A; raised : option exn }.
Arguments Trace {A} yielded raised.
Arguments yielded {A} t.
Arguments raised {A} t.

(** [yield x] followed by the rest of the run. *)
Definition yield {A} (x : A) (t : trace A) : trace A :=
  Trace (x :: yielded t) (raised t).

(** Iterating over a list that is already there. *)
Definition iter {A} (l : list A) : trace A := Trace l None.

(** Items are dictionaries from strings to values; a value is a scalar
    or again a dictionary.  (Floats, lists and tuples are left out.) *)
Inductive value :=
  | VNone
  | VBool (b : bool)
  | VInt (z : Z)
  | VStr (s : string)
  | VDict (d : gmap string value).

Abbreviation record := (gmap string value).

(** [str.lower] on the ASCII range. *)
Definition lower_ascii (c : ascii) : ascii :=
  let n := nat_of_ascii c in
  if ((65 <=? n)%nat && (n <=? 90)%nat)%bool then ascii_of_nat (n + 32) else c.

Fixpoint lower (s : string) : string :=
  match s with
  | EmptyString => EmptyString
  | String c r => String (lower_ascii c) (lower r)
  end.

(** [s.endswith(suffix)]. *)
Definition endswith (s suffix : string) : bool :=
  let n := String.length s in
  let k := String.length suffix in
  ((k <=? n)%nat && String.eqb (String.substring (n - k) k s) suffix)%bool.

(** [s.split(' ')[0]]: the text before the first blank. *)
Fixpoint split_space_first (s : string) : string :=
  match s with
  | EmptyString => EmptyString
  | String c r =>
      if Ascii.eqb c " "%char then EmptyString
      else String c (split_space_first r)
  end.

(** [s.split('.')]. *)
Fixpoint split_dot (s : string) : list string :=
  match s with
  | EmptyString => [EmptyString]
  | String c r =>
      if Ascii.eqb c "."%char then EmptyString :: split_dot r
      else
        match split_dot r with
        | seg :: rest => String c seg :: rest
        | [] => [String c EmptyString]
        end
  end.

(** White space as [int()] strips it. *)
Definition is_space (c : ascii) : bool :=
  let n := nat_of_ascii c in
  ((n =? 32)%nat || ((9 <=? n)%nat && (n <=? 13)%nat))%bool.

Fixpoint lstrip (s : string) : string :=
  match s with
  | EmptyString => EmptyString
  | String c r => if is_space c then lstrip r else s
  end.

Definition strip (s : string) : string :=
  String.rev (lstrip (String.rev (lstrip s))).

Definition digit_val (c : ascii) : option Z :=
  let n := nat_of_ascii c in
  if ((48 <=? n)%nat && (n <=? 57)%nat)%bool then Some (Z.of_nat n - 48) else None.

Fixpoint parse_digits (acc : Z) (s : string) : option Z :=
  match s with
  | EmptyString => Some acc
  | String c r =>
      match digit_val c with
      | Some d => parse_digits (10 * acc + d) r
      | None => None
      end
  end.

Definition parse_unsigned (s : string) : option Z :=
  match s with
  | EmptyString => None
  | _ => parse_digits 0 s
  end.

(** [int(s)] for a string, base 10: blanks around, a sign, digits. *)
Definition int_of_string (s : string) : result Z :=
  let t := strip s in
  let r :=
    match t with
    | String "+"%char u => parse_unsigned u
    | String "-"%char u => Z.opp <$> parse_unsigned u
    | _ => parse_unsigned t
    end in
  match r with
  | Some z => Ok z
  | None => Raise ValueError
  end.

(** [int(v)]. *)
Definition int (v : value) : result Z :=
  match v with
  | VInt z => Ok z
  | VBool b => Ok (if b then 1 else 0)
  | VStr s => int_of_string s
  | VNone => Raise TypeError
  | VDict _ => Raise TypeError
  end.

(** Membership in a [set] goes through [hash] and [==]: [True] and [1]
    are one element, a dictionary cannot be hashed. *)
Inductive hkey :=
  | KNone
  | KInt (z : Z)
  | KStr (s : string).

#[global] Instance hkey_eq_dec : EqDecision hkey.
Proof. solve_decision. Defined.

#[global] Instance hkey_countable : Countable hkey.
Proof.
  refine (inj_countable'
    (λ k, match k with
          | KNone => inl ()
          | KInt z => inr (inl z)
          | KStr s => inr (inr s)
          end)
    (λ x, match x with
          | inl _ => KNone
          | inr (inl z) => KInt z
          | inr (inr s) => KStr s
          end) _).
  by intros [].
Defined.

Definition hash_key (v : value) : result hkey :=
  match v with
  | VNone => Ok KNone
  | VBool b => Ok (KInt (if b then 1 else 0))
  | VInt z => Ok (KInt z)
  | VStr s => Ok (KStr s)
  | VDict _ => Raise TypeError
  end.

(** The largest index of the interpreter ([sys.maxsize], 64-bit build). *)
Definition PY_SSIZE_T_MAX : Z := 2 ^ 63 - 1.

(** [collections.deque]: [append] adds on the right and, when the
    deque has grown beyond [maxlen], drops one element on the left. *)
Definition deque_append {A} (maxlen : nat) (d : list A) (x : A) : list A :=
  let d' := d ++ [x] in
  if (maxlen <? length d')%nat then tail d' else d'.

(** [deque(iterable, maxlen)]. *)
Definition deque {A} (iterable : list A) (maxlen : Z) : result (list A) :=
  if maxlen <? 0 then Raise ValueError
  else if PY_SSIZE_T_MAX <? maxlen then Raise OverflowError
  else Ok (fold_left (deque_append (Z.to_nat maxlen)) iterable []).

End Py.

Import Py.

(** ** The datetime module of the Python library *)

Module Datetime.

Record datetime := Datetime {
  year : Z; month : Z; day : Z;
  hour : Z; minute : Z; second : Z; microsecond : Z }.

Definition is_leap (y : Z) : bool :=
  (y mod 4 =? 0) && (negb (y mod 100 =? 0) || (y mod 400 =? 0)).

Definition DAYS_IN_MONTH (m : Z) : Z :=
  nth (Z.to_nat m) [0; 31; 28; 31; 30; 31; 30; 31; 31; 30; 31; 30; 31] 0.

Definition DAYS_BEFORE_MONTH (m : Z) : Z :=
  nth (Z.to_nat m) [0; 0; 31; 59; 90; 120; 151; 181; 212; 243; 273; 304; 334] 0.

Definition days_before_year (y : Z) : Z :=
  let y := y - 1 in
  y * 365 + y / 4 - y / 100 + y / 400.

Definition days_in_month (y m : Z) : Z :=
  if (m =? 2) && is_leap y then 29 else DAYS_IN_MONTH m.

Definition days_before_month (y m : Z) : Z :=
  DAYS_BEFORE_MONTH m + (if (2 <? m) && is_leap y then 1 else 0).

(** The day number of a date, 0001-01-01 being day 1. *)
Definition ymd2ord (y m d : Z) : Z :=
  days_before_year y + days_before_month y m + d.

Definition DI400Y : Z := 146097.
Definition DI100Y : Z := 36524.
Definition DI4Y : Z := 1461.
Definition MAXORDINAL : Z := 3652059.

(** The month and the day of the [n]-th day of a year, counted from
    0, in a leap year or not. *)
Definition month_day (leapyear : bool) (n : Z) : Z * Z :=
  let m := Z.shiftr (n + 50) 5 in
  let preceding :=
    DAYS_BEFORE_MONTH m + (if (2 <? m) && leapyear then 1 else 0) in
  if n <? preceding then
    let m := m - 1 in
    let preceding :=
      preceding - (DAYS_IN_MONTH m + (if (m =? 2) && leapyear then 1 else 0)) in
    (m, n - preceding + 1)
  else (m, n - preceding + 1).

(** The date of a day number. *)
Definition ord2ymd (n : Z) : Z * Z * Z :=
  let n := n - 1 in
  let n400 := n / DI400Y in
  let n := n mod DI400Y in
  let y := n400 * 400 + 1 in
  let n100 := n / DI100Y in
  let n := n mod DI100Y in
  let n4 := n / DI4Y in
  let n := n mod DI4Y in
  let n1 := n / 365 in
  let n := n mod 365 in
  let y := y + n100 * 100 + n4 * 4 + n1 in
  if (n1 =? 4) || (n100 =? 4) then (y - 1, 12, 31)
  else
    let leapyear := (n1 =? 3) && (negb (n4 =? 24) || (n100 =? 3)) in
    let '(m, d) := month_day leapyear n in
    (y, m, d).

Definition toordinal (t : datetime) : Z := ymd2ord (year t) (month t) (day t).

(** The values a [datetime] can take. *)
Definition valid (t : datetime) : Prop :=
  1 ≤ year t ≤ 9999 ∧ 1 ≤ month t ≤ 12
  ∧ 1 ≤ day t ≤ days_in_month (year t) (month t)
  ∧ 0 ≤ hour t < 24 ∧ 0 ≤ minute t < 60 ∧ 0 ≤ second t < 60
  ∧ 0 ≤ microsecond t < 1000000.

(** [t + timedelta(days=days)]: the time of day stays, the date is the
    one [days] days later; [timedelta] takes at most 999999999 days and
    the date must stay within the years 1 to 9999. *)
Definition add_days (t : datetime) (days : Z) : result datetime :=
  if 999999999 <? Z.abs days then Raise OverflowError
  else
    let n := toordinal t + days in
    if (0 <? n) && (n <=? MAXORDINAL) then
      let '(y, m, d) := ord2ymd n in
      Ok (Datetime y m d (hour t) (minute t) (second t) (microsecond t))
    else Raise OverflowError.

(** [t.replace(year=y)]. *)
Definition replace_year (t : datetime) (y : Z) : result datetime :=
  if (1 <=? y) && (y <=? 9999) then
    if day t <=? days_in_month y (month t) then
      Ok (Datetime y (month t) (day t) (hour t) (minute t) (second t)
            (microsecond t))
    else Raise ValueError
  else Raise ValueError.

Record struct_time := StructTime {
  tm_year : Z; tm_mon : Z; tm_mday : Z;
  tm_hour : Z; tm_min : Z; tm_sec : Z;
  tm_wday : Z; tm_yday : Z; tm_isdst : Z }.

(** [t.timetuple()]. *)
Definition timetuple (t : datetime) : struct_time :=
  StructTime (year t) (month t) (day t) (hour t) (minute t) (second t)
    ((toordinal t + 6) mod 7)
    (days_before_month (year t) (month t) + day t)
    (-1).

Definition digit_char (d : Z) : ascii := ascii_of_nat (48 + Z.to_nat d).

(** [n] written with [width] digits. *)
Fixpoint zfill (width : nat) (n : Z) : string :=
  match width with
  | O => EmptyString
  | S w => String (digit_char ((n / 10 ^ Z.of_nat w) mod 10)) (zfill w n)
  end.

(** [t.isoformat()]. *)
Definition isoformat (t : datetime) : string :=
  zfill 4 (year t) +:+ "-" +:+ zfill 2 (month t) +:+ "-" +:+ zfill 2 (day t)
  +:+ "T" +:+ zfill 2 (hour t) +:+ ":" +:+ zfill 2 (minute t) +:+ ":"
  +:+ zfill 2 (second t)
  +:+ (if microsecond t =? 0 then "" else "." +:+ zfill 6 (microsecond t)).

(** [t'] is the moment [n] days after [t]: a date of the calendar
    whose day number is [n] more, at the same time of day. *)
Definition days_apart (t t' : datetime) (n : Z) : Prop :=
  toordinal t' = toordinal t + n
  ∧ 1 ≤ month t' ≤ 12 ∧ 1 ≤ day t' ≤ days_in_month (year t') (month t')
  ∧ hour t' = hour t ∧ minute t' = minute t ∧ second t' = second t
  ∧ microsecond t' = microsecond t.

(** A test over the numbers from 0 up to a bound, run in one pass. *)
Definition all_below (f : Z → bool) (bound : positive) : bool :=
  (Pos.iter (λ st : Z * bool, (st.1 + 1, st.2 && f st.1)) (0, true) bound).2.

(** One day of a year: its month and day are a date of the calendar,
    and as many days of the year come before it as its number says. *)
Definition year_day_ok (leapyear : bool) (n : Z) : bool :=
  let '(m, d) := month_day leapyear n in
  (1 <=? m) && (m <=? 12) && (1 <=? d)
  && (d <=? DAYS_IN_MONTH m + (if (m =? 2) && leapyear then 1 else 0))
  && (DAYS_BEFORE_MONTH m + (if (2 <? m) && leapyear then 1 else 0) + d
      =? n + 1).

End Datetime.

(** ** pipe2py.lib.dotdict *)

Module DotDict.

(** Descending nested dictionaries along the keys of a path. *)
Fixpoint lookup_path (v : value) (path : list string) : option value :=
  match path with
  | [] => Some v
  | k :: ks =>
      match v with
      | VDict d =>
          match d !! k with
          | Some v' => lookup_path v' ks
          | None => None
          end
      | _ => None
      end
  end.

(** Modelled from the spec: [DotDict.get] is not among the sources.
    [get(record, path, default)] resolves a dot-separated path by
    descending nested mappings and returns [default] if any segment is
    absent; it never fails for missing keys. *)
Definition get (item : record) (path : string) (default : value) : value :=
  match lookup_path (VDict item) (split_dot path) with
  | Some v => v
  | None => default
  end.

(** One dotted assignment: the dictionaries on the way are created
    when they are not there (or are not dictionaries). *)
Fixpoint set_path (d : record) (path : list string) (v : value) : record :=
  match path with
  | [] => d
  | k :: ks =>
      match ks with
      | [] => <[k := v]> d
      | _ :: _ =>
          let sub := match d !! k with
                     | Some (VDict d') => d'
                     | _ => ∅
                     end in
          <[k := VDict (set_path sub ks v)]> d
      end
  end.

(** Modelled from the spec: the [DotDict] constructor is not among the
    sources.  [construct] builds a nested record from a flat sequence
    of dotted assignments, made from left to right. *)
Definition construct (pairs : list (string * value)) : record :=
  fold_left (λ d kv, set_path d (split_dot kv.1) kv.2) pairs ∅.

End DotDict.

(** ** riko.modules.pipetail *)

Module PipeTail.

(** The resolved configuration, an [Objectify]: attribute names to
    values.  Reading an attribute that is not set is modelled as an
    [AttributeError]. *)
Definition getattr (objconf : gmap string value) (name : string) : result value :=
  match objconf !! name with
  | Some v => Ok v
  | None => Raise AttributeError
  end.

(** [parser]: [return deque(stream, int(objconf.count))]. *)
Definition parser (stream : list record) (objconf : gmap string value)
    (tuples : list (record * gmap string value)) : result (list record) :=
  count ← getattr objconf "count";
  n ← int count;
  deque stream n.

(** The last [n] elements of a list, in the order of the list. *)
Definition last_n {A} (n : nat) (l : list A) : list A :=
  drop (length l - n) l.

(** The bodies of the two entry points, before decoration: both
    return [parser] applied to the very arguments they were given. *)
Definition asyncPipe := parser.
Definition pipe := parser.

End PipeTail.

(** ** pipe2py.modules.pipeuniq *)

Module PipeUniq.

(** [unique_items]: the loop, with the set [seen] as it stands. *)
Fixpoint unique_loop (seen : gset hkey) (items : list record) (field : string)
    : trace record :=
  match items with
  | [] => Trace [] None
  | item :: rest =>
      let value := DotDict.get item field VNone in
      match hash_key value with
      | Raise e => Trace [] (Some e)
      | Ok k =>
          if decide (k ∉ seen) then yield item (unique_loop ({[k]} ∪ seen) rest field)
          else unique_loop seen rest field
      end
  end.

Definition unique_items (items : list record) (field : string) : trace record :=
  unique_loop ∅ items field.

(** [item.get(field)]: the value the filter compares. *)
Definition field_value (item : record) (field : string) : value :=
  DotDict.get item field VNone.

(** The record has nothing at the path of the field. *)
Definition lacks (field : string) (item : record) : bool :=
  match DotDict.lookup_path (VDict item) (split_dot field) with
  | None => true
  | Some _ => false
  end.

(** The field of the record resolves to [None]. *)
Definition resolves_none (field : string) (item : record) : bool :=
  match field_value item field with
  | VNone => true
  | _ => false
  end.

Definition hashable (v : value) : Prop := ∃ k, hash_key v = Ok k.

(** [v == w] for two values that can be hashed. *)
Definition same_value (v w : value) : bool :=
  match hash_key v, hash_key w with
  | Ok a, Ok b => bool_decide (a = b)
  | _, _ => false
  end.

(** The filter in the words of the specification: a record is kept
    exactly when the value of its field equals the value of the field
    of no record that came earlier; [earlier] holds all the records
    that came earlier, forwarded or not. *)
Definition seen_before (earlier : list record) (field : string) (item : record)
    : bool :=
  existsb (λ e, same_value (field_value e field) (field_value item field)) earlier.

Fixpoint keep_first_from (earlier items : list record) (field : string)
    : list record :=
  match items with
  | [] => []
  | item :: rest =>
      (if seen_before earlier field item then [] else [item])
      ++ keep_first_from (earlier ++ [item]) rest field
  end.

Definition keep_first (items : list record) (field : string) : list record :=
  keep_first_from [] items field.

Section pipe_uniq.
(** [utils.get_pass], [utils.parse_conf] and the types of the
    configuration and of the keyword arguments are not among the
    sources. *)
Context {Conf Arg : Type}.
Variable get_pass : option Arg → bool.
Variable parse_conf : Conf → gmap string Arg → result (gmap string value).

Definition pipe_uniq (_INPUT : list record) (conf : Conf)
    (kwargs : gmap string Arg) : result (trace record) :=
  let test := kwargs !! "pass_if" in
  let kwargs := delete "pass_if" kwargs in
  let _pass := get_pass test in
  parsed ← parse_conf conf kwargs;
  if _pass then Ok (iter _INPUT)
  else
    field ← PipeTail.getattr parsed "field";
    match field with
    | VStr f => Ok (unique_items _INPUT f)
    | _ => Raise TypeError
    end.
End pipe_uniq.

End PipeUniq.

(** ** pipe2py.modules.pipedatebuilder *)

Module PipeDateBuilder.
Import Datetime.

(** What the variable [date] and the entries of [SWITCH] can hold. *)
Inductive pyobj :=
  | OStr (s : string)
  | ODatetime (t : datetime)
  | OTime (s : struct_time).

(** [o.timetuple()], [o] being what [SWITCH.get] gave: only a
    [datetime] has the method; [None], a [struct_time] and a string
    have not. *)
Definition call_timetuple (o : option pyobj) : result struct_time :=
  match o with
  | Some (ODatetime t) => Ok (timetuple t)
  | Some (OTime _) => Raise AttributeError
  | Some (OStr _) => Raise AttributeError
  | None => Raise AttributeError
  end.

(** The truth value of an object: a [struct_time] is a sequence of
    nine fields. *)
Definition truthy (o : pyobj) : bool :=
  match o with
  | OStr s => negb (String.eqb s "")
  | ODatetime _ => true
  | OTime _ => true
  end.

(** Code that reads the clock and may raise: the state is the number
    of readings made so far. *)
Definition clocked (A : Type) : Type := nat → result A * nat.

Definition cret {A} (a : A) : clocked A := λ n, (Ok a, n).

Definition cbind {A B} (m : clocked A) (k : A → clocked B) : clocked B :=
  λ n, match m n with
       | (Ok a, n') => k a n'
       | (Raise e, n') => (Raise e, n')
       end.

Definition lift {A} (r : result A) : clocked A := λ n, (r, n).

Notation "'let*' x ':=' m 'in' k" := (cbind m (λ x, k))
  (at level 10, x name, m at level 100, k at level 200, only parsing).

Section clock.
(** [clock n] is what the [n]-th call of [datetime.today()] or
    [datetime.now()] returns. *)
Variable clock : nat → datetime.

Definition today : clocked datetime := λ n, (Ok (clock n), S n).
Definition now : clocked datetime := today.

(** The table [SWITCH], made when the module is loaded. *)
Definition SWITCH_init : clocked (gmap string pyobj) :=
  let* t_today := today in
  let* t := today in
  let* t_tomorrow := lift (add_days t 1) in
  let* t := today in
  let* t_yesterday := lift (add_days t (-1)) in
  let* t_now := now in
  cret (<["today" := ODatetime t_today]>
        (<["tomorrow" := ODatetime t_tomorrow]>
         (<["yesterday" := ODatetime t_yesterday]>
          (<["now" := OTime (timetuple t_now)]> ∅)))).

Section pipe_datebuilder.
(** [util.get_value], [util.ALTERNATIVE_DATE_FORMATS] and the
    keyword arguments are not among the sources; [strptime] is
    [datetime.strptime] on a string. *)
Context {Kwargs : Type}.
Variable get_value : value → record → Kwargs → result value.
Variable ALTERNATIVE_DATE_FORMATS : list string.
Variable strptime : string → string → result datetime.
Variable SWITCH : gmap string pyobj.

(** [datetime.strptime(date, df)]: the first argument must be a
    string. *)
Definition call_strptime (date : pyobj) (df : string) : result datetime :=
  match date with
  | OStr s => strptime s df
  | ODatetime _ => Raise TypeError
  | OTime _ => Raise TypeError
  end.

(** The loop over the alternative formats: the first format that
    parses ends it, an exception goes on to the next format, and
    when none parses [date] is left as it was. *)
Fixpoint try_formats (date : pyobj) (formats : list string) : pyobj :=
  match formats with
  | [] => date
  | df :: rest =>
      match call_strptime date df with
      | Ok t => OTime (timetuple t)
      | Raise _ => try_formats date rest
      end
  end.

(** The body of the loop over the items, up to the [yield]. *)
Definition build_date (conf item : record) (kwargs : Kwargs) : clocked pyobj :=
  let* d := lift (match conf !! "DATE" with
                  | Some d => Ok d
                  | None => Raise KeyError
                  end) in
  let* v := lift (get_value d item kwargs) in
  let* date := lift (match v with
                     | VStr s => Ok (lower s)
                     | _ => Raise AttributeError
                     end) in
  let* date :=
    if endswith date " day" || endswith date " days" then
      let* count := lift (int (VStr (split_space_first date))) in
      let* t := today in
      let* t := lift (add_days t count) in
      cret (timetuple t)
    else if endswith date " year" || endswith date " years" then
      let* count := lift (int (VStr (split_space_first date))) in
      let* t := today in
      let* t' := today in
      let* t := lift (replace_year t (year t' + count)) in
      cret (timetuple t)
    else lift (call_timetuple (SWITCH !! date)) in
  let date := OTime date in
  cret (if negb (truthy date) then try_formats date ALTERNATIVE_DATE_FORMATS
        else date).

Fixpoint datebuilder_loop (conf : record) (items : list record)
    (kwargs : Kwargs) (n : nat) : trace pyobj * nat :=
  match items with
  | [] => (Trace [] None, n)
  | item :: rest =>
      match build_date conf item kwargs n with
      | (Ok date, n') =>
          let '(t, n'') := datebuilder_loop conf rest kwargs n' in
          (yield date t, n'')
      | (Raise e, n') => (Trace [] (Some e), n')
      end
  end.

Definition pipe_datebuilder (_INPUT : list record) (conf : record)
    (kwargs : Kwargs) : nat → trace pyobj * nat :=
  datebuilder_loop conf _INPUT kwargs.
End pipe_datebuilder.
End clock.

(** The date a call gave, as the pipe yields it. *)
Definition timetuple_of (r : result datetime) : result pyobj :=
  match r with
  | Ok t => Ok (OTime (timetuple t))
  | Raise e => Raise e
  end.

(** The two kinds of suffix of a date expression. *)
Definition has_day_suffix (date : string) : bool :=
  endswith date " day" || endswith date " days".

Definition has_year_suffix (date : string) : bool :=
  endswith date " year" || endswith date " years".

End PipeDateBuilder.

(** ** pipe2py.modules.piperssitembuilder *)

Module PipeRssItemBuilder.

Definition OPTS : gmap string bool := {[ "emit" := true ]}.

(** [DEFAULTS], made when the module is loaded, [now] being what
    [dt.now()] returned then. *)
Definition DEFAULTS (now : Datetime.datetime) : gmap string string :=
  {[ "pubDate" := Datetime.isoformat now ]}.

Definition RSS : gmap string string :=
  list_to_map [
    ("title", "y:title");
    ("guid", "y:id");
    ("mediaThumbURL", "media:thumbnail.url");
    ("mediaThumbHeight", "media:thumbnail.height");
    ("mediaThumbWidth", "media:thumbnail.width");
    ("mediaContentType", "media:content.type");
    ("mediaContentURL", "media:content.url");
    ("mediaContentHeight", "media:content.height");
    ("mediaContentWidth", "media:content.width")].

(** [RSS.get(k, k)]. *)
Definition RSS_get (k : string) : string := default k (RSS !! k).

(** [item.get(v, v)]. *)
Definition item_get (item : record) (v : string) : value :=
  DotDict.get item v (VStr v).

(** The two-tier rule in the words of the specification: the value of
    the record at the path when the path is there, else the string
    itself. *)
Definition resolve_ref (item : record) (v : string) : value :=
  match DotDict.lookup_path (VDict item) (split_dot v) with
  | Some x => x
  | None => VStr v
  end.

(** [parser]; [objconf] stands for [objconf.items()], the entries of
    the configuration in the order the dictionary gives them. *)
Definition parser (item : record) (objconf : list (string * string))
    (skip : bool) (kwargs : gmap string value) : result (value * bool) :=
  feed ← (if skip then
            match kwargs !! "feed" with
            | Some feed => Ok feed
            | None => Raise KeyError
            end
          else
            let items := objconf in
            Ok (VDict (DotDict.construct
                         ((λ kv, (RSS_get kv.1, item_get item kv.2)) <$> items))));
  Ok (feed, skip).

(** The bodies of the two entry points, before decoration. *)
Definition asyncPipe := parser.
Definition pipe := parser.

(** Modelled from the spec: the merge is done by the decorator, which
    is not among the sources.  [DEFAULTS] supplies fallback values
    merged under the configuration the caller supplies. *)
Definition merge_defaults (defaults conf : gmap string string)
    : gmap string string :=
  conf ∪ defaults.

(** Two paths, neither of which leads through the other. *)
Definition independent (p q : list string) : Prop :=
  ¬ p `prefix_of` q ∧ ¬ q `prefix_of` p.

End PipeRssItemBuilder.

(** ** The decorators *)

Module Wrapper.

(** A [Deferred]: what is done with its result is given as a callback. *)
Definition deferred (A : Type) : Type := ∀ R : Type, (result A → R) → R.

Definition maybeDeferred {A} (r : result A) : deferred A := λ R k, k r.
Definition succeed {A} (a : A) : deferred A := maybeDeferred (Ok a).

Definition addCallback {A B} (d : deferred A) (f : A → deferred B) : deferred B :=
  λ R k, d R (λ r, match r with
                   | Ok a => f a R k
                   | Raise e => k (Raise e)
                   end).

(** What the [Deferred] resolves to. *)
Definition fire {A} (d : deferred A) : result A := d (result A) id.

(** The sequence a consumer gets from a call that returned [r]. *)
Definition to_trace {A} (r : result (list A)) : trace A :=
  match r with
  | Ok l => Trace l None
  | Raise e => Trace [] (Some e)
  end.

Section processor.
(** Modelled from the spec: the decorator [processor] is not among
    the sources.  For an incoming record the defaults are merged
    under the configuration, the merged configuration is resolved
    against the record, the skip predicate is evaluated; if it holds
    the record passes through untransformed and the parser is not
    invoked, otherwise the parser is invoked with [skip] false and
    its result goes to the output.  The synchronous form gives the
    sequence, the asynchronous form a [Deferred] of it that drives
    the same steps through callbacks. *)
Context {Item Conf ObjConf Kwargs Out : Type}.
Variable DEFAULTS : Conf.
Variable merge : Conf → Conf → Conf.
Variable resolve : Conf → Item → Kwargs → result ObjConf.
Variable pass_if : Item → ObjConf → bool.
Variable passthrough : Item → Out.
Variable f : Item → ObjConf → bool → Kwargs → result (Out * bool).

Definition processor_sync (item : Item) (conf : Conf) (kwargs : Kwargs)
    : trace Out :=
  to_trace (objconf ← resolve (merge DEFAULTS conf) item kwargs;
            if pass_if item objconf then Ok [passthrough item]
            else r ← f item objconf false kwargs; Ok [r.1]).

Definition processor_async (item : Item) (conf : Conf) (kwargs : Kwargs)
    : deferred (list Out) :=
  addCallback (maybeDeferred (resolve (merge DEFAULTS conf) item kwargs))
    (λ objconf,
       if pass_if item objconf then succeed [passthrough item]
       else addCallback (maybeDeferred (f item objconf false kwargs))
              (λ r, succeed [r.1])).
End processor.

Section operator.
(** Modelled from the spec: the decorator [operator] is not among
    the sources.  An aggregator receives the whole stream, the
    configuration resolved once, and the stream paired item by item
    with its resolved configuration, and returns the output
    sequence; an error fails the whole call. *)
Context {Item Conf ObjConf Kwargs Out : Type}.
Variable resolve : Conf → Kwargs → result ObjConf.
Variable f : list Item → ObjConf → list (Item * ObjConf) → result (list Out).

Definition operator_sync (stream : list Item) (conf : Conf) (kwargs : Kwargs)
    : trace Out :=
  to_trace (objconf ← resolve conf kwargs;
            f stream objconf ((λ item, (item, objconf)) <$> stream)).

Definition operator_async (stream : list Item) (conf : Conf) (kwargs : Kwargs)
    : deferred (list Out) :=
  addCallback (maybeDeferred (resolve conf kwargs))
    (λ objconf,
       maybeDeferred (f stream objconf ((λ item, (item, objconf)) <$> stream))).
End operator.

End Wrapper.

(** ** The documented configuration of the RSS item builder *)

(** The keys of the configuration the entry points document, and the
    key of the default. *)
Definition documented_keys : list string :=
  ["title"; "description"; "author"; "guid"; "pubdate"; "link";
   "mediaContentType"; "mediaContentURL"; "mediaContentHeight";
   "mediaContentWidth"; "mediaThumbURL"; "mediaThumbHeight";
   "mediaThumbWidth"; "pubDate"].

#[global] Instance independent_dec (p q : list string) :
  Decision (PipeRssItemBuilder.independent p q).
Proof. unfold PipeRssItemBuilder.independent. apply _. Defined.

(** ** Example data *)

Definition x_item (x : Z) : record := {[ "x" := VInt x ]}.

Definition id_item (x : Z) : record := {[ "id" := VInt x ]}.

(** An example run: the module is loaded on 2020-01-01 at midnight,
    the pipe runs on 2020-01-05 at 08:30. *)
Definition example_clock (n : nat) : Datetime.datetime :=
  if (n <? 4)%nat then Datetime.Datetime 2020 1 1 0 0 0 0
  else Datetime.Datetime 2020 1 5 8 30 0 0.

Definition example_get_value (v : value) (item : record) (kwargs : unit)
    : result value := Ok v.

(** A [strptime] that parses whatever it is given. *)
Definition example_strptime (date format : string) : result Datetime.datetime :=
  Ok (Datetime.Datetime 2015 1 1 0 0 0 0).

Definition example_SWITCH : gmap string PipeDateBuilder.pyobj :=
  match (PipeDateBuilder.SWITCH_init example_clock 0%nat).1 with
  | Ok m => m
  | Raise _ => ∅
  end.

Definition example_datebuilder (date : string)
    : trace PipeDateBuilder.pyobj * nat :=
  PipeDateBuilder.pipe_datebuilder example_clock example_get_value
    ["%Y-%m-%d"] example_strptime example_SWITCH
    [∅] {[ "DATE" := VStr date ]} () 4%nat.

Definition example_item : record :=
  {[ "id" := VStr "a1"; "thumbnail" := VStr "image.png" ]}.

Definition example_conf : gmap string string :=
  {[ "guid" := "id"; "mediaThumbURL" := "thumbnail" ]}.

Definition example_feed (pubDate : string) : record :=
  {[ "y:id" := VStr "a1";
     "media:thumbnail" := VDict {[ "url" := VStr "image.png" ]};
     "pubDate" := VStr pubDate ]}.

(** * Properties *)

(** ** The trailing window *)

Section deque_facts.
Context {A : Type}.
Implicit Types (l pre : list A) (n : nat).

Lemma last_n_length n l : length (PipeTail.last_n n l) = (length l `min` n)%nat.
Proof. unfold PipeTail.last_n. rewrite length_drop. lia. Qed.

Lemma last_n_all n l : (length l ≤ n)%nat → PipeTail.last_n n l = l.
Proof.
  intros Hle. unfold PipeTail.last_n.
  by replace (length l - n)%nat with 0%nat by lia.
Qed.

Lemma last_n_0 l : PipeTail.last_n 0 l = [].
Proof.
  unfold PipeTail.last_n. rewrite Nat.sub_0_r. apply drop_all.
Qed.

Lemma last_n_suffix n l : ∃ pre, l = pre ++ PipeTail.last_n n l.
Proof.
  exists (take (length l - n) l). unfold PipeTail.last_n.
  by rewrite take_drop.
Qed.

(** One [append] keeps the window: what is held after [pre ++ [x]]
    has gone by is the last [n] of it. *)
Lemma deque_append_last_n n pre x :
  deque_append n (PipeTail.last_n n pre) x = PipeTail.last_n n (pre ++ [x]).
Proof.
  unfold deque_append. rewrite length_app, last_n_length. simpl.
  destruct (Nat.ltb_spec n (length pre `min` n + 1)) as [Hfull|Hroom].
  - assert (n ≤ length pre)%nat as Hn by lia.
    unfold PipeTail.last_n. rewrite length_app. simpl.
    replace (length pre + 1 - n)%nat with (S (length pre - n)) by lia.
    rewrite <- (drop_app_le pre [x] (length pre - n)) by lia.
    change (tail ?d) with (drop 1 d). rewrite drop_drop.
    f_equal. lia.
  - assert (length pre < n)%nat as Hn by lia.
    rewrite (last_n_all n pre) by lia.
    rewrite last_n_all; [done|]. rewrite length_app. simpl. lia.
Qed.

Lemma deque_fold_last_n n l pre :
  fold_left (deque_append n) l (PipeTail.last_n n pre)
  = PipeTail.last_n n (pre ++ l).
Proof.
  revert pre. induction l as [|x l IH]; intros pre; simpl.
  - by rewrite app_nil_r.
  - rewrite deque_append_last_n, IH. by rewrite <- app_assoc.
Qed.

Lemma deque_last_n l (m : Z) :
  0 ≤ m ≤ PY_SSIZE_T_MAX →
  deque l m = Ok (PipeTail.last_n (Z.to_nat m) l).
Proof.
  intros [Hlo Hhi]. unfold deque.
  destruct (Z.ltb_spec m 0); [lia|].
  destruct (Z.ltb_spec PY_SSIZE_T_MAX m); [lia|].
  f_equal. apply (deque_fold_last_n (Z.to_nat m) l []).
Qed.

Lemma deque_negative l (m : Z) : m < 0 → deque l m = Raise ValueError.
Proof. intros Hm. unfold deque. by destruct (Z.ltb_spec m 0); [|lia]. Qed.
End deque_facts.

(** C2. With the configured count coerced to the integer [N ≥ 0], the
    tail parser returns the last [min N (length stream)] records of the
    stream, in their order: a suffix of the stream of that length.
    [N = 0] gives the empty list, [N] at least the length of the stream
    gives the stream itself, and on [{x:0} .. {x:4}] with count 2 the
    result is [{x:3}; {x:4}]. *)
Theorem tail_parser_last_n (stream : list record) (objconf : gmap string value)
    (tuples : list (record * gmap string value)) (count : value) (N : Z) :
  objconf !! "count" = Some count →
  int count = Ok N →
  0 ≤ N ≤ PY_SSIZE_T_MAX →
  let out := PipeTail.last_n (Z.to_nat (N `min` Z.of_nat (length stream))) stream in
  PipeTail.parser stream objconf tuples = Ok out
  ∧ (∃ pre, stream = pre ++ out)
  ∧ Z.of_nat (length out) = N `min` Z.of_nat (length stream)
  ∧ (N = 0 → PipeTail.parser stream objconf tuples = Ok [])
  ∧ (Z.of_nat (length stream) ≤ N →
     PipeTail.parser stream objconf tuples = Ok stream)
  ∧ (let items := x_item <$> [0; 1; 2; 3; 4] in
     let conf : gmap string value := {[ "count" := VInt 2 ]} in
     PipeTail.parser items conf ((λ i, (i, conf)) <$> items)
     = Ok [x_item 3; x_item 4]).
Proof.
  intros Hcount Hint HN out.
  assert (PipeTail.parser stream objconf tuples
          = Ok (PipeTail.last_n (Z.to_nat N) stream)) as Hrun.
  { unfold PipeTail.parser, PipeTail.getattr. rewrite Hcount. simpl.
    rewrite Hint. simpl. by apply deque_last_n. }
  assert (PipeTail.last_n (Z.to_nat N) stream = out) as Hout.
  { subst out. destruct (Z.le_ge_cases N (Z.of_nat (length stream))) as [Hle|Hge].
    - by rewrite Z.min_l.
    - rewrite Z.min_r, Nat2Z.id by done.
      rewrite !last_n_all; [done|lia|lia]. }
  split_and!.
  - by rewrite Hrun, Hout.
  - apply last_n_suffix.
  - subst out. rewrite last_n_length. lia.
  - intros ->. rewrite Hrun. simpl. by rewrite last_n_0.
  - intros Hlen. rewrite Hrun. by rewrite last_n_all by lia.
  - reflexivity.
Qed.

Lemma tail_parser_last_n_witness :
  let conf : gmap string value := {[ "count" := VStr " 2 " ]} in
  conf !! "count" = Some (VStr " 2 ")
  ∧ int (VStr " 2 ") = Ok 2
  ∧ 0 ≤ 2 ≤ PY_SSIZE_T_MAX
  ∧ PipeTail.parser (x_item <$> [0; 1; 2; 3; 4]) conf []
    = Ok [x_item 3; x_item 4].
Proof.
  intros conf.
  assert (0 ≤ 2 ≤ PY_SSIZE_T_MAX) as Hrange by (unfold PY_SSIZE_T_MAX; lia).
  split_and!; [reflexivity|reflexivity|lia|lia|].
  exact (proj1 (tail_parser_last_n (x_item <$> [0; 1; 2; 3; 4]) conf []
                 (VStr " 2 ") 2 eq_refl eq_refl Hrange)).
Defined.

(** ** The uniqueness filter *)

Section uniq_facts.
Import PipeUniq.
Variable field : string.
Implicit Types (items earlier : list record) (seen : gset hkey).

Lemma hash_key_none v : hash_key v = Ok KNone ↔ v = VNone.
Proof. destruct v as [|[]| | |]; simpl; split; congruence. Qed.

Lemma lacks_resolves_none item :
  lacks field item = true → field_value item field = VNone.
Proof.
  unfold lacks, field_value, DotDict.get.
  by destruct (DotDict.lookup_path _ _).
Qed.

Lemma seen_before_spec earlier item k :
  hash_key (field_value item field) = Ok k →
  seen_before earlier field item = true
  ↔ ∃ e, e ∈ earlier ∧ hash_key (field_value e field) = Ok k.
Proof.
  intros Hk. unfold seen_before. rewrite existsb_exists. split.
  - intros (e & Hin & Hsame). exists e. split; [by apply list_elem_of_In|].
    unfold same_value in Hsame. rewrite Hk in Hsame.
    destruct (hash_key (field_value e field)) as [k'|]; [|done].
    apply bool_decide_eq_true in Hsame. by subst.
  - intros (e & Hin & He). exists e. split; [by apply list_elem_of_In|].
    unfold same_value. rewrite Hk, He. by apply bool_decide_eq_true.
Qed.

Lemma keep_first_from_app earlier l1 l2 :
  keep_first_from earlier (l1 ++ l2) field
  = keep_first_from earlier l1 field ++ keep_first_from (earlier ++ l1) l2 field.
Proof.
  revert earlier. induction l1 as [|x l1 IH]; intros earlier; simpl.
  - by rewrite app_nil_r.
  - rewrite IH, <- !app_assoc. done.
Qed.

Lemma keep_first_from_sublist earlier items :
  keep_first_from earlier items field `sublist_of` items.
Proof.
  revert earlier. induction items as [|x items IH]; intros earlier; simpl.
  - done.
  - destruct (seen_before earlier field x); simpl.
    + by apply sublist_cons.
    + by apply sublist_skip.
Qed.

(** The loop against the specification: [seen] holds the keys of the
    records met so far. *)
Lemma unique_loop_keep_first items earlier seen :
  Forall (λ item, hashable (field_value item field)) items →
  (∀ k, k ∈ seen ↔ ∃ e, e ∈ earlier ∧ hash_key (field_value e field) = Ok k) →
  unique_loop seen items field = Trace (keep_first_from earlier items field) None.
Proof.
  revert earlier seen.
  induction items as [|item items IH]; intros earlier seen Hhash Hseen; [done|].
  apply Forall_cons in Hhash as [[k Hk] Hhash]. simpl.
  fold (field_value item field). rewrite Hk.
  pose proof (seen_before_spec earlier item k Hk) as Hdup.
  rewrite <- Hseen in Hdup.
  destruct (decide (k ∉ seen)) as [Hnew|Hold].
  - destruct (seen_before earlier field item); [by destruct Hnew; apply Hdup|].
    rewrite (IH (earlier ++ [item]) ({[k]} ∪ seen)); [done|done|].
    intros k'. rewrite elem_of_union, elem_of_singleton, Hseen. split.
    + intros [->|(e & He & Hke)].
      * exists item. split; [set_solver|done].
      * exists e. split; [set_solver|done].
    + intros (e & He & Hke). apply elem_of_app in He as [He|He].
      * right. by exists e.
      * left. apply list_elem_of_singleton in He. subst e. congruence.
  - apply dec_stable in Hold.
    destruct (seen_before earlier field item) eqn:Hsb;
      [|apply Hdup in Hold; congruence].
    rewrite (IH (earlier ++ [item]) seen); [done|done|].
    intros k'. rewrite Hseen. split.
    + intros (e & He & Hke). exists e. split; [set_solver|done].
    + intros (e & He & Hke). apply elem_of_app in He as [He|He].
      * by exists e.
      * apply list_elem_of_singleton in He. subst e.
        replace k' with k by congruence. by apply Hseen.
Qed.

(** Running the loop again over what it gave, with a set that holds
    no more than the first run had at its start, gives it all back. *)
Lemma unique_loop_again items seen seen' :
  seen' ⊆ seen →
  unique_loop seen' (yielded (unique_loop seen items field)) field
  = Trace (yielded (unique_loop seen items field)) None.
Proof.
  revert seen seen'.
  induction items as [|item items IH]; intros seen seen' Hsub; [done|].
  simpl. destruct (hash_key (DotDict.get item field VNone)) as [k|e] eqn:Hk;
    [|done].
  destruct (decide (k ∉ seen)) as [Hnew|Hold].
  - simpl. rewrite Hk.
    destruct (decide (k ∉ seen')) as [_|Hin]; [|set_solver].
    rewrite (IH ({[k]} ∪ seen) ({[k]} ∪ seen')); [done|set_solver].
  - by apply IH.
Qed.

(** Of the records that resolve to [None], the loop gives the first
    one, and only if [None] was not in the set already. *)
Lemma unique_loop_none items seen :
  Forall (λ item, hashable (field_value item field)) items →
  List.filter (resolves_none field) (yielded (unique_loop seen items field))
  = if decide (KNone ∈ seen) then []
    else take 1 (List.filter (resolves_none field) items).
Proof.
  revert seen. induction items as [|item items IH]; intros seen Hhash.
  - simpl. by case_decide.
  - apply Forall_cons in Hhash as [[k Hk] Hhash]. simpl.
    fold (field_value item field). rewrite Hk.
    destruct (resolves_none field item) eqn:Hnone.
    + assert (k = KNone) as ->.
      { unfold resolves_none in Hnone.
        destruct (field_value item field); simpl in Hk; congruence. }
      destruct (decide (KNone ∉ seen)) as [Hnew|Hold].
      * simpl. rewrite Hnone, IH by done.
        rewrite decide_True by set_solver.
        rewrite decide_False by done. done.
      * apply dec_stable in Hold. rewrite IH by done.
        by rewrite !decide_True by done.
    + assert (k ≠ KNone) as Hne.
      { intros ->. apply hash_key_none in Hk.
        unfold resolves_none in Hnone. by rewrite Hk in Hnone. }
      destruct (decide (k ∉ seen)) as [Hnew|Hold].
      * simpl. rewrite Hnone, IH by done.
        destruct (decide (KNone ∈ seen)) as [Hin|Hout].
        -- rewrite decide_True by set_solver. done.
        -- rewrite decide_False by set_solver. done.
      * by rewrite IH.
Qed.

Lemma filter_lacks_resolves items :
  Forall (λ item, field_value item field = VNone → lacks field item = true) items →
  List.filter (lacks field) items = List.filter (resolves_none field) items.
Proof.
  induction 1 as [|item items Hitem _ IH]; [done|]. simpl. rewrite IH.
  destruct (lacks field item) eqn:Hl.
  - unfold resolves_none. by rewrite (lacks_resolves_none item Hl).
  - unfold resolves_none.
    destruct (field_value item field) eqn:Hv; try done.
    by specialize (Hitem eq_refl).
Qed.
End uniq_facts.

(** C4. On a stream whose records all have a value at the field that
    can be hashed, the filter forwards a record exactly when the value
    of its field equals the value of the field of no earlier record,
    drops it when it equals that of some earlier record, and the
    records it forwards are in the order of the stream. *)
Theorem unique_items_first_occurrences (items : list record) (field : string) :
  Forall (λ item, PipeUniq.hashable (PipeUniq.field_value item field)) items →
  PipeUniq.unique_items items field = Trace (PipeUniq.keep_first items field) None
  ∧ PipeUniq.keep_first items field `sublist_of` items
  ∧ (∀ pre item post, items = pre ++ item :: post →
       yielded (PipeUniq.unique_items items field)
       = yielded (PipeUniq.unique_items pre field)
         ++ (if PipeUniq.seen_before pre field item then [] else [item])
         ++ PipeUniq.keep_first_from (pre ++ [item]) post field
       ∧ (PipeUniq.seen_before pre field item = true
          ↔ ∃ e, e ∈ pre
               ∧ PipeUniq.same_value (PipeUniq.field_value e field)
                                     (PipeUniq.field_value item field) = true)).
Proof.
  intros Hhash.
  assert (∀ l, Forall (λ item, PipeUniq.hashable (PipeUniq.field_value item field)) l →
               PipeUniq.unique_items l field
               = Trace (PipeUniq.keep_first l field) None) as Hrun.
  { intros l Hl. apply unique_loop_keep_first; [done|]. set_solver. }
  split_and!.
  - by apply Hrun.
  - apply keep_first_from_sublist.
  - intros pre item post ->. split.
    + rewrite Hrun by done. apply Forall_app in Hhash as [Hpre _].
      rewrite Hrun by done. simpl. unfold PipeUniq.keep_first.
      by rewrite keep_first_from_app.
    + unfold PipeUniq.seen_before. rewrite existsb_exists.
      by setoid_rewrite list_elem_of_In.
Qed.

Lemma unique_items_first_occurrences_witness :
  let items := [id_item 1; id_item 2; id_item 1; ∅; id_item 2; ∅] in
  Forall (λ item, PipeUniq.hashable (PipeUniq.field_value item "id")) items
  ∧ PipeUniq.unique_items items "id" = Trace [id_item 1; id_item 2; ∅] None.
Proof.
  intros items.
  assert (Forall (λ item, PipeUniq.hashable (PipeUniq.field_value item "id")) items)
    as Hhash by (repeat constructor; eexists; reflexivity).
  split; [done|].
  exact (proj1 (unique_items_first_occurrences items "id" Hhash)).
Defined.

(** C5. The filter is idempotent: run over the records it has
    forwarded, it forwards them all again, in the same order. *)
Theorem unique_items_idempotent (items : list record) (field : string) :
  let out := yielded (PipeUniq.unique_items items field) in
  PipeUniq.unique_items out field = Trace out None.
Proof. intros out. by apply unique_loop_again. Qed.

(** C10. A record that has nothing at the field resolves to [None],
    the one value all such records share.  On a stream whose field
    values can all be hashed, of the records that resolve to [None]
    only the first is forwarded; and when no record holds [None] at
    the field, of the records that lack the field only the first is
    forwarded and every later one is dropped. *)
Theorem unique_items_missing_field (items : list record) (field : string) :
  (∀ item, PipeUniq.lacks field item = true →
           PipeUniq.field_value item field = VNone
           ∧ hash_key (PipeUniq.field_value item field) = Ok KNone)
  ∧ (Forall (λ item, PipeUniq.hashable (PipeUniq.field_value item field)) items →
     List.filter (PipeUniq.resolves_none field)
       (yielded (PipeUniq.unique_items items field))
     = take 1 (List.filter (PipeUniq.resolves_none field) items))
  ∧ (Forall (λ item, PipeUniq.hashable (PipeUniq.field_value item field)) items →
     Forall (λ item, PipeUniq.field_value item field = VNone →
                     PipeUniq.lacks field item = true) items →
     raised (PipeUniq.unique_items items field) = None
     ∧ List.filter (PipeUniq.lacks field)
         (yielded (PipeUniq.unique_items items field))
       = take 1 (List.filter (PipeUniq.lacks field) items)).
Proof.
  assert (Forall (λ item, PipeUniq.hashable (PipeUniq.field_value item field)) items →
          List.filter (PipeUniq.resolves_none field)
            (yielded (PipeUniq.unique_items items field))
          = take 1 (List.filter (PipeUniq.resolves_none field) items)) as Hres.
  { intros Hhash. unfold PipeUniq.unique_items.
    rewrite unique_loop_none by done.
    by rewrite decide_False by set_solver. }
  split_and!.
  - intros item Hl. rewrite (lacks_resolves_none field item Hl). done.
  - done.
  - intros Hhash Hnone.
    assert (PipeUniq.unique_items items field
            = Trace (PipeUniq.keep_first items field) None) as Hrun
      by (apply unique_loop_keep_first; [done|set_solver]).
    split; [by rewrite Hrun|].
    rewrite (filter_lacks_resolves field items) by done.
    rewrite <- Hres by done. apply filter_lacks_resolves.
    apply Forall_forall. intros item Hin.
    rewrite Forall_forall in Hnone. apply Hnone.
    eapply elem_of_sublist; [done|].
    rewrite Hrun. apply keep_first_from_sublist.
Qed.

Lemma unique_items_missing_field_witness :
  let items := [id_item 1; ∅; id_item 2; ∅; {[ "name" := VStr "n" ]}] in
  Forall (λ item, PipeUniq.hashable (PipeUniq.field_value item "id")) items
  ∧ Forall (λ item, PipeUniq.field_value item "id" = VNone →
                    PipeUniq.lacks "id" item = true) items
  ∧ List.filter (PipeUniq.lacks "id") (yielded (PipeUniq.unique_items items "id"))
    = [∅].
Proof.
  intros items.
  assert (Forall (λ item, PipeUniq.hashable (PipeUniq.field_value item "id")) items)
    as Hhash by (repeat constructor; eexists; reflexivity).
  assert (Forall (λ item, PipeUniq.field_value item "id" = VNone →
                          PipeUniq.lacks "id" item = true) items)
    as Hnone by (repeat constructor; done).
  split_and!; [done|done|].
  exact (proj2 (proj2 (proj2 (unique_items_missing_field items "id"))
                  Hhash Hnone)).
Defined.

(** C9. When the bypass test of the uniqueness pipe holds, the pipe
    gives back its input: the same records in the same order, none
    dropped, whatever their fields. *)
Theorem pipe_uniq_pass {Conf Arg : Type} (get_pass : option Arg → bool)
    (parse_conf : Conf → gmap string Arg → result (gmap string value))
    (_INPUT : list record) (conf : Conf) (kwargs : gmap string Arg)
    (parsed : gmap string value) :
  get_pass (kwargs !! "pass_if") = true →
  parse_conf conf (delete "pass_if" kwargs) = Ok parsed →
  PipeUniq.pipe_uniq get_pass parse_conf _INPUT conf kwargs = Ok (iter _INPUT)
  ∧ yielded (iter _INPUT) = _INPUT
  ∧ raised (iter _INPUT) = None.
Proof.
  intros Hpass Hconf. unfold PipeUniq.pipe_uniq.
  rewrite Hconf, Hpass. done.
Qed.

Lemma pipe_uniq_pass_witness :
  let get_pass := λ test : option bool, default false test in
  let parse_conf := λ (_ : unit) (_ : gmap string bool),
                      Ok ({[ "field" := VStr "id" ]} : gmap string value) in
  let kwargs : gmap string bool := {[ "pass_if" := true ]} in
  let _INPUT := [id_item 1; id_item 1; ∅; ∅] in
  get_pass (kwargs !! "pass_if") = true
  ∧ PipeUniq.pipe_uniq get_pass parse_conf _INPUT () kwargs = Ok (iter _INPUT).
Proof.
  intros get_pass parse_conf kwargs _INPUT. split; [reflexivity|].
  exact (proj1 (pipe_uniq_pass get_pass parse_conf _INPUT () kwargs
                  {[ "field" := VStr "id" ]} eq_refl eq_refl)).
Defined.

(** ** The calendar *)

Section calendar.
Import Datetime.

Lemma all_below_spec f bound :
  all_below f bound = true → ∀ i, 0 ≤ i < Z.pos bound → f i = true.
Proof.
  unfold all_below.
  pose (P := λ (p : positive) (st : Z * bool),
          st.1 = Z.pos p
          ∧ (st.2 = true → ∀ i, 0 ≤ i < Z.pos p → f i = true)).
  assert (P bound (Pos.iter (λ st : Z * bool, (st.1 + 1, st.2 && f st.1))
                     (0, true) bound)) as [_ Hall].
  { apply Pos.iter_ind; unfold P; simpl.
    - split; [done|]. intros Hf i Hi. by replace i with 0 by lia.
    - intros p [n b] [Hn Hb]. simpl in *. subst n. split; [lia|].
      intros Hand i Hi. apply andb_true_iff in Hand as [Hbt Hfp].
      destruct (decide (i = Z.pos p)) as [->|Hne]; [done|].
      apply Hb; [done|lia]. }
  exact Hall.
Qed.

Lemma year_days_checked :
  all_below (year_day_ok true) 365 && all_below (year_day_ok false) 365 = true.
Proof. vm_compute. reflexivity. Qed.

(** The month and the day of a day of a year. *)
Lemma month_day_correct leapyear r :
  0 ≤ r < 365 →
  let '(m, d) := month_day leapyear r in
  1 ≤ m ≤ 12
  ∧ 1 ≤ d ≤ DAYS_IN_MONTH m + (if (m =? 2) && leapyear then 1 else 0)
  ∧ DAYS_BEFORE_MONTH m + (if (2 <? m) && leapyear then 1 else 0) + d = r + 1.
Proof.
  intros Hr. pose proof year_days_checked as Hall.
  apply andb_true_iff in Hall as [Ht Hf].
  assert (year_day_ok leapyear r = true) as Hok.
  { destruct leapyear; by eapply all_below_spec. }
  unfold year_day_ok in Hok. destruct (month_day leapyear r) as [m d].
  rewrite !andb_true_iff in Hok. destruct Hok as [[[[H1 H2] H3] H4] H5].
  lia.
Qed.

(** The years before the year [400 a + 100 b + 4 c + e + 1] hold
    [146097 a + 36524 b + 1461 c + 365 e] days. *)
Lemma days_before_year_split a b c e :
  0 ≤ b ≤ 3 → 0 ≤ c ≤ 24 → 0 ≤ e ≤ 3 →
  days_before_year (400 * a + 100 * b + 4 * c + e + 1)
  = 146097 * a + 36524 * b + 1461 * c + 365 * e.
Proof.
  intros Hb Hc He. unfold days_before_year. cbv zeta.
  replace (400 * a + 100 * b + 4 * c + e + 1 - 1)
    with (400 * a + 100 * b + 4 * c + e) by ring.
  Z.div_mod_to_equations. lia.
Qed.

Lemma is_leap_split a b c e :
  0 ≤ b ≤ 3 → 0 ≤ c ≤ 24 → 0 ≤ e ≤ 3 →
  is_leap (400 * a + 100 * b + 4 * c + e + 1)
  = (e =? 3) && (negb (c =? 24) || (b =? 3)).
Proof.
  intros Hb Hc He. unfold is_leap.
  repeat match goal with
         | |- context [?x =? ?y] => destruct (Z.eqb_spec x y)
         end; simpl; try reflexivity; exfalso;
    Z.div_mod_to_equations; lia.
Qed.

Lemma days_in_month_leap y m :
  days_in_month y m
  = DAYS_IN_MONTH m + (if (m =? 2) && is_leap y then 1 else 0).
Proof.
  unfold days_in_month. destruct (Z.eqb_spec m 2) as [->|_]; simpl.
  - by destruct (is_leap y).
  - lia.
Qed.

(** The date of a day number is a date of the calendar whose day
    number is that number. *)
Lemma ord2ymd_correct n :
  let '(y, m, d) := ord2ymd n in
  ymd2ord y m d = n ∧ 1 ≤ m ≤ 12 ∧ 1 ≤ d ≤ days_in_month y m.
Proof.
  unfold ord2ymd, DI400Y, DI100Y, DI4Y. cbv zeta.
  pose proof (Z.div_mod (n - 1) 146097 ltac:(done)) as E400.
  pose proof (Z.mod_pos_bound (n - 1) 146097 ltac:(done)) as B400.
  set (a := (n - 1) / 146097) in *. set (r400 := (n - 1) mod 146097) in *.
  pose proof (Z.div_mod r400 36524 ltac:(done)) as E100.
  pose proof (Z.mod_pos_bound r400 36524 ltac:(done)) as B100.
  set (b := r400 / 36524) in *. set (r100 := r400 mod 36524) in *.
  pose proof (Z.div_mod r100 1461 ltac:(done)) as E4.
  pose proof (Z.mod_pos_bound r100 1461 ltac:(done)) as B4.
  set (c := r100 / 1461) in *. set (r4 := r100 mod 1461) in *.
  pose proof (Z.div_mod r4 365 ltac:(done)) as E1.
  pose proof (Z.mod_pos_bound r4 365 ltac:(done)) as B1.
  set (e := r4 / 365) in *. set (r1 := r4 mod 365) in *.
  clearbody a r400 b r100 c r4 e r1.
  assert (0 ≤ b ≤ 4 ∧ 0 ≤ c ≤ 24 ∧ 0 ≤ e ≤ 4) as (Hb & Hc & He) by lia.
  destruct (Z.eqb_spec e 4) as [He4|He4]; [|destruct (Z.eqb_spec b 4) as [Hb4|Hb4]];
    simpl orb; cbv iota.
  - (* the last day of a leap year *)
    assert (b ≤ 3 ∧ c ≤ 23 ∧ r1 = 0) as (Hb3 & Hc23 & Hr1) by lia.
    replace (a * 400 + 1 + b * 100 + c * 4 + e - 1)
      with (400 * a + 100 * b + 4 * c + 3 + 1) by lia.
    unfold ymd2ord, days_before_month.
    rewrite days_in_month_leap, days_before_year_split, is_leap_split by lia.
    destruct (Z.eqb_spec c 24); [lia|].
    change (3 =? 3) with true. change (12 =? 2) with false.
    change (2 <? 12) with true. cbn [andb negb orb].
    change (DAYS_BEFORE_MONTH 12) with 334. change (DAYS_IN_MONTH 12) with 31.
    lia.
  - (* the last day of a cycle of 400 years *)
    assert (r100 = 0 ∧ c = 0 ∧ e = 0 ∧ r1 = 0) as (Hr100 & -> & -> & ->) by lia.
    subst b.
    replace (a * 400 + 1 + 4 * 100 + 0 * 4 + 0 - 1)
      with (400 * a + 100 * 3 + 4 * 24 + 3 + 1) by lia.
    unfold ymd2ord, days_before_month.
    rewrite days_in_month_leap, days_before_year_split, is_leap_split by lia.
    change (3 =? 3) with true. change (24 =? 24) with true.
    change (12 =? 2) with false. change (2 <? 12) with true.
    cbn [andb negb orb].
    change (DAYS_BEFORE_MONTH 12) with 334. change (DAYS_IN_MONTH 12) with 31.
    lia.
  - (* any other day *)
    replace (a * 400 + 1 + b * 100 + c * 4 + e)
      with (400 * a + 100 * b + 4 * c + e + 1) by lia.
    pose proof (month_day_correct
                  ((e =? 3) && (negb (c =? 24) || (b =? 3))) r1 B1) as Hmd.
    destruct (month_day _ r1) as [m d].
    unfold ymd2ord, days_before_month.
    rewrite days_in_month_leap, days_before_year_split, is_leap_split by lia.
    lia.
Qed.
End calendar.

Section datetime_facts.
Import Datetime.

Lemma add_days_inv t n t' : add_days t n = Ok t' → days_apart t t' n.
Proof.
  unfold add_days.
  destruct (999999999 <? Z.abs n); [done|].
  destruct ((0 <? toordinal t + n) && (toordinal t + n <=? MAXORDINAL)); [|done].
  pose proof (ord2ymd_correct (toordinal t + n)) as Hord.
  destruct (ord2ymd (toordinal t + n)) as [[y m] d].
  intros [= <-]. unfold days_apart, toordinal. simpl. naive_solver.
Qed.

Lemma add_days_ok t n :
  Z.abs n ≤ 999999999 → 1 ≤ toordinal t + n ≤ MAXORDINAL →
  ∃ t', add_days t n = Ok t'.
Proof.
  intros Hn Hord. unfold add_days.
  destruct (Z.ltb_spec 999999999 (Z.abs n)); [lia|].
  destruct (Z.ltb_spec 0 (toordinal t + n)); [|lia].
  destruct (Z.leb_spec (toordinal t + n) MAXORDINAL); [|lia].
  simpl. destruct (ord2ymd (toordinal t + n)) as [[y m] d]. eauto.
Qed.

Lemma replace_year_ok t y :
  1 ≤ y ≤ 9999 → day t ≤ days_in_month y (month t) →
  replace_year t y
  = Ok (Datetime y (month t) (day t) (hour t) (minute t) (second t)
          (microsecond t)).
Proof.
  intros Hy Hd. unfold replace_year.
  destruct (Z.leb_spec 1 y); [|lia].
  destruct (Z.leb_spec y 9999); [|lia].
  destruct (Z.leb_spec (day t) (days_in_month y (month t))); [|lia].
  done.
Qed.
End datetime_facts.

(** ** The date builder *)

Section datebuilder_facts.
Import Datetime PipeDateBuilder.
Context {Kwargs : Type}.
Variable clock : nat → datetime.
Variable get_value : value → record → Kwargs → result value.
Variable ALTERNATIVE_DATE_FORMATS : list string.
Variable strptime : string → string → result datetime.
Variable SWITCH : gmap string pyobj.

Local Abbreviation build_date :=
  (build_date clock get_value ALTERNATIVE_DATE_FORMATS strptime SWITCH).
Local Abbreviation pipe_datebuilder :=
  (pipe_datebuilder clock get_value ALTERNATIVE_DATE_FORMATS strptime SWITCH).

Variables (conf item : record) (kwargs : Kwargs) (d : value) (s : string).
Hypothesis Hconf : conf !! "DATE" = Some d.
Hypothesis Hget : get_value d item kwargs = Ok (VStr s).

(** One item in the stream: what the body of the loop gives is what
    the pipe yields. *)
Lemma pipe_datebuilder_one n r n' :
  build_date conf item kwargs n = (r, n') →
  pipe_datebuilder [item] conf kwargs n
  = (match r with
     | Ok date => Trace [date] None
     | Raise e => Trace [] (Some e)
     end, n').
Proof.
  intros Hb. unfold PipeDateBuilder.pipe_datebuilder. simpl.
  rewrite Hb. by destruct r.
Qed.

Lemma build_date_days n N :
  has_day_suffix (lower s) = true →
  int (VStr (split_space_first (lower s))) = Ok N →
  build_date conf item kwargs n
  = (timetuple_of (add_days (clock n) N), S n).
Proof.
  intros Hsuf Hint. unfold PipeDateBuilder.build_date, cbind, lift, today, cret.
  rewrite Hconf, Hget. fold (has_day_suffix (lower s)).
  rewrite Hsuf, Hint. unfold timetuple_of.
  by destruct (add_days (clock n) N).
Qed.

Lemma build_date_years n N :
  has_day_suffix (lower s) = false →
  has_year_suffix (lower s) = true →
  int (VStr (split_space_first (lower s))) = Ok N →
  build_date conf item kwargs n
  = (timetuple_of (replace_year (clock n) (year (clock (S n)) + N)), S (S n)).
Proof.
  intros Hday Hsuf Hint.
  unfold PipeDateBuilder.build_date, cbind, lift, today, cret.
  rewrite Hconf, Hget. fold (has_day_suffix (lower s)).
  fold (has_year_suffix (lower s)).
  rewrite Hday, Hsuf, Hint. unfold timetuple_of.
  by destruct (replace_year (clock n) (year (clock (S n)) + N)).
Qed.

Lemma build_date_keyword n :
  has_day_suffix (lower s) = false →
  has_year_suffix (lower s) = false →
  build_date conf item kwargs n
  = (OTime <$> call_timetuple (SWITCH !! lower s), n).
Proof.
  intros Hday Hyear.
  unfold PipeDateBuilder.build_date, cbind, lift, today, cret.
  rewrite Hconf, Hget. fold (has_day_suffix (lower s)).
  fold (has_year_suffix (lower s)).
  rewrite Hday, Hyear.
  by destruct (call_timetuple (SWITCH !! lower s)).
Qed.
End datebuilder_facts.

(** C3. What the code does with a date expression that has neither
    suffix and is no key of the table: [SWITCH.get] gives [None], the
    call of [timetuple] on it raises [AttributeError], the generator
    stops there without a date, and none of the alternative formats is
    tried, whatever the formats and whatever [strptime] would make of
    the expression. *)
Theorem datebuilder_unknown_expression_raises {Kwargs : Type}
    (clock : nat → Datetime.datetime)
    (get_value : value → record → Kwargs → result value)
    (ALTERNATIVE_DATE_FORMATS : list string)
    (strptime : string → string → result Datetime.datetime)
    (SWITCH : gmap string PipeDateBuilder.pyobj)
    (conf item : record) (rest : list record) (kwargs : Kwargs)
    (d : value) (s : string) (n : nat) :
  conf !! "DATE" = Some d →
  get_value d item kwargs = Ok (VStr s) →
  PipeDateBuilder.has_day_suffix (lower s) = false →
  PipeDateBuilder.has_year_suffix (lower s) = false →
  SWITCH !! lower s = None →
  PipeDateBuilder.pipe_datebuilder clock get_value ALTERNATIVE_DATE_FORMATS
    strptime SWITCH (item :: rest) conf kwargs n
  = (Trace [] (Some AttributeError), n).
Proof.
  intros Hconf Hget Hday Hyear Hkey.
  unfold PipeDateBuilder.pipe_datebuilder. simpl.
  rewrite (build_date_keyword clock get_value ALTERNATIVE_DATE_FORMATS strptime
             SWITCH conf item kwargs d s Hconf Hget n Hday Hyear).
  by rewrite Hkey.
Qed.

Lemma datebuilder_unknown_expression_raises_witness :
  example_strptime "2015-01-01" "%Y-%m-%d"
  = Ok (Datetime.Datetime 2015 1 1 0 0 0 0)
  ∧ example_SWITCH !! lower "2015-01-01" = None
  ∧ example_datebuilder "2015-01-01" = (Trace [] (Some AttributeError), 4%nat).
Proof.
  split_and!; [reflexivity|reflexivity|].
  exact (datebuilder_unknown_expression_raises example_clock example_get_value
           ["%Y-%m-%d"] example_strptime example_SWITCH
           {[ "DATE" := VStr "2015-01-01" ]} ∅ [] () (VStr "2015-01-01")
           "2015-01-01" 4%nat eq_refl eq_refl eq_refl eq_refl eq_refl).
Defined.

(** The keyword [now]: its entry in the table is a [struct_time]
    already, and the call of [timetuple] on it raises. *)
Lemma datebuilder_now_raises :
  example_datebuilder "now" = (Trace [] (Some AttributeError), 4%nat).
Proof. reflexivity. Qed.

(** C8, as stated, fails: with the module loaded on 2020-01-01 and the
    pipe run on 2020-01-05, [yesterday] yields 2019-12-31, the day
    before the module was loaded, and not 2020-01-04, the day before
    the day of the run. *)
Lemma datebuilder_yesterday_is_from_load_time :
  PipeDateBuilder.SWITCH_init example_clock 0%nat = (Ok example_SWITCH, 4%nat)
  ∧ example_datebuilder "yesterday"
    = (Trace [PipeDateBuilder.OTime
                (Datetime.timetuple (Datetime.Datetime 2019 12 31 0 0 0 0))] None,
       4%nat)
  ∧ Datetime.add_days (example_clock 4) (-1)
    = Ok (Datetime.Datetime 2020 1 4 8 30 0 0)
  ∧ Datetime.tm_mday (Datetime.timetuple (Datetime.Datetime 2019 12 31 0 0 0 0))
    ≠ Datetime.tm_mday (Datetime.timetuple (Datetime.Datetime 2020 1 4 8 30 0 0)).
Proof. split_and!; [reflexivity|reflexivity|reflexivity|discriminate]. Qed.

(** C8, amended.  For an item whose date expression, in lower case,
    is [lower s]:
    - with a day suffix and the leading integer [N], the pipe yields
      the moment [N] days after the reading of the clock made for the
      item, at the same time of day;
    - with a year suffix and the leading integer [N], it yields the
      reading of the clock with its year replaced by the year of a
      second reading plus [N], month and day kept, when that date
      exists;
    - the keywords [today], [tomorrow] and [yesterday] yield the
      entries of the table made when the module was loaded: the first
      reading of the clock then, one day after the second, one day
      before the third. *)
Theorem datebuilder_relative_dates {Kwargs : Type}
    (clock : nat → Datetime.datetime)
    (get_value : value → record → Kwargs → result value)
    (ALTERNATIVE_DATE_FORMATS : list string)
    (strptime : string → string → result Datetime.datetime)
    (SWITCH : gmap string PipeDateBuilder.pyobj)
    (conf item : record) (kwargs : Kwargs) (d : value) (s : string) (n : nat) :
  let run := PipeDateBuilder.pipe_datebuilder clock get_value
               ALTERNATIVE_DATE_FORMATS strptime SWITCH [item] conf kwargs n in
  let yields t m :=
    run = (Trace [PipeDateBuilder.OTime (Datetime.timetuple t)] None, m) in
  conf !! "DATE" = Some d →
  get_value d item kwargs = Ok (VStr s) →
  (∀ N, PipeDateBuilder.has_day_suffix (lower s) = true →
        int (VStr (split_space_first (lower s))) = Ok N →
        Z.abs N ≤ 999999999 →
        1 ≤ Datetime.toordinal (clock n) + N ≤ Datetime.MAXORDINAL →
        ∃ t, Datetime.days_apart (clock n) t N ∧ yields t (S n))
  ∧ (∀ N, PipeDateBuilder.has_day_suffix (lower s) = false →
          PipeDateBuilder.has_year_suffix (lower s) = true →
          int (VStr (split_space_first (lower s))) = Ok N →
          let y := Datetime.year (clock (S n)) + N in
          let t := clock n in
          1 ≤ y ≤ 9999 →
          Datetime.day t ≤ Datetime.days_in_month y (Datetime.month t) →
          yields (Datetime.Datetime y (Datetime.month t) (Datetime.day t)
                    (Datetime.hour t) (Datetime.minute t) (Datetime.second t)
                    (Datetime.microsecond t)) (S (S n)))
  ∧ (PipeDateBuilder.SWITCH_init clock 0%nat = (Ok SWITCH, 4%nat) →
     (lower s = "today" → yields (clock 0%nat) n)
     ∧ (lower s = "tomorrow" →
        ∃ t, Datetime.days_apart (clock 1%nat) t 1 ∧ yields t n)
     ∧ (lower s = "yesterday" →
        ∃ t, Datetime.days_apart (clock 2%nat) t (-1) ∧ yields t n)).
Proof.
  intros run yields Hconf Hget. subst run yields. cbv beta.
  pose proof (pipe_datebuilder_one clock get_value ALTERNATIVE_DATE_FORMATS
                strptime SWITCH conf item kwargs n) as Hone.
  split_and!.
  - intros N Hsuf Hint HN Hord.
    destruct (add_days_ok (clock n) N HN Hord) as [t Ht].
    exists t. split; [by apply add_days_inv|].
    rewrite (Hone _ _ (build_date_days clock get_value _ strptime SWITCH
                         conf item kwargs d s Hconf Hget n N Hsuf Hint)).
    by rewrite Ht.
  - intros N Hday Hsuf Hint y t Hy Hd.
    rewrite (Hone _ _ (build_date_years clock get_value _ strptime SWITCH
                         conf item kwargs d s Hconf Hget n N Hday Hsuf Hint)).
    subst y t. by rewrite replace_year_ok.
  - intros Hinit.
    unfold PipeDateBuilder.SWITCH_init, PipeDateBuilder.cbind,
      PipeDateBuilder.lift, PipeDateBuilder.today, PipeDateBuilder.now,
      PipeDateBuilder.cret in Hinit.
    destruct (Datetime.add_days (clock 1%nat) 1) as [t1|] eqn:Ht1; [|done].
    destruct (Datetime.add_days (clock 2%nat) (-1)) as [t2|] eqn:Ht2; [|done].
    injection Hinit as <-.
    split_and!.
    + intros Hs.
      rewrite (Hone _ _ (build_date_keyword clock get_value _ strptime _
                           conf item kwargs d s Hconf Hget n
                           ltac:(by rewrite Hs) ltac:(by rewrite Hs))).
      by rewrite Hs.
    + intros Hs. exists t1. split; [by apply add_days_inv|].
      rewrite (Hone _ _ (build_date_keyword clock get_value _ strptime _
                           conf item kwargs d s Hconf Hget n
                           ltac:(by rewrite Hs) ltac:(by rewrite Hs))).
      by rewrite Hs.
    + intros Hs. exists t2. split; [by apply add_days_inv|].
      rewrite (Hone _ _ (build_date_keyword clock get_value _ strptime _
                           conf item kwargs d s Hconf Hget n
                           ltac:(by rewrite Hs) ltac:(by rewrite Hs))).
      by rewrite Hs.
Qed.

Lemma datebuilder_relative_dates_witness :
  (∃ t, Datetime.days_apart (example_clock 4) t 3
        ∧ example_datebuilder "3 Days"
          = (Trace [PipeDateBuilder.OTime (Datetime.timetuple t)] None, 5%nat))
  ∧ example_datebuilder "3 Days"
    = (Trace [PipeDateBuilder.OTime
                (Datetime.timetuple (Datetime.Datetime 2020 1 8 8 30 0 0))] None,
       5%nat)
  ∧ example_datebuilder "1 year"
    = (Trace [PipeDateBuilder.OTime
                (Datetime.timetuple (Datetime.Datetime 2021 1 5 8 30 0 0))] None,
       6%nat)
  ∧ (∃ t, Datetime.days_apart (example_clock 2) t (-1)
          ∧ example_datebuilder "yesterday"
            = (Trace [PipeDateBuilder.OTime (Datetime.timetuple t)] None, 4%nat)).
Proof.
  split_and!.
  - refine (proj1 (datebuilder_relative_dates example_clock example_get_value
             ["%Y-%m-%d"] example_strptime example_SWITCH
             {[ "DATE" := VStr "3 Days" ]} ∅ () (VStr "3 Days") "3 Days" 4%nat
             eq_refl eq_refl) 3 eq_refl eq_refl _ _).
    + simpl. lia.
    + vm_compute. split; discriminate.
  - reflexivity.
  - refine (proj1 (proj2 (datebuilder_relative_dates example_clock
             example_get_value ["%Y-%m-%d"] example_strptime example_SWITCH
             {[ "DATE" := VStr "1 year" ]} ∅ () (VStr "1 year") "1 year" 4%nat
             eq_refl eq_refl)) 1 eq_refl eq_refl eq_refl _ _).
    + vm_compute. split; discriminate.
    + vm_compute. discriminate.
  - refine (proj2 (proj2 (proj2 (proj2 (datebuilder_relative_dates example_clock
             example_get_value ["%Y-%m-%d"] example_strptime example_SWITCH
             {[ "DATE" := VStr "yesterday" ]} ∅ () (VStr "yesterday")
             "yesterday" 4%nat eq_refl eq_refl)) eq_refl)) eq_refl).
Defined.

(** ** The accessor *)

Section dotdict_facts.
Import DotDict PipeRssItemBuilder.
Implicit Types (d : record) (p q : list string) (v w : value).

Lemma split_dot_nonempty s : split_dot s ≠ [].
Proof.
  destruct s as [|c s]; simpl; [done|].
  destruct (Ascii.eqb c "."); [done|]. by destruct (split_dot s).
Qed.

Lemma split_dot_head c r :
  Ascii.eqb c "." = false →
  ∃ seg rest, split_dot (String c r) = String c seg :: rest.
Proof.
  intros Hc. simpl. rewrite Hc. destruct (split_dot r); eauto.
Qed.

Lemma set_path_cons d k k' ks v :
  set_path d (k :: k' :: ks) v
  = <[k := VDict (set_path match d !! k with
                           | Some (VDict d') => d'
                           | _ => ∅
                           end (k' :: ks) v)]> d.
Proof. reflexivity. Qed.

Lemma lookup_path_cons d k ps :
  lookup_path (VDict d) (k :: ps)
  = match d !! k with
    | Some v' => lookup_path v' ps
    | None => None
    end.
Proof. reflexivity. Qed.

(** What has just been set at a path is found there. *)
Lemma lookup_set_path_same d p v :
  p ≠ [] → lookup_path (VDict (set_path d p v)) p = Some v.
Proof.
  revert d. induction p as [|k ks IH]; intros d Hp; [done|].
  destruct ks as [|k' ks].
  - simpl. by rewrite lookup_insert_eq.
  - rewrite set_path_cons, lookup_path_cons, lookup_insert_eq.
    by apply IH.
Qed.

(** Setting a path leaves alone what is at a path that neither
    leads through it nor is on the way to it. *)
Lemma lookup_set_path_independent d p q w :
  independent p q →
  lookup_path (VDict (set_path d q w)) p = lookup_path (VDict d) p.
Proof.
  revert d p. induction q as [|k ks IH]; intros d p [Hpq Hqp]; [done|].
  destruct p as [|k0 ps]; [by destruct Hpq; apply prefix_nil|].
  destruct (decide (k0 = k)) as [->|Hne].
  - destruct ks as [|k' ks].
    { destruct Hqp. apply prefix_cons, prefix_nil. }
    rewrite set_path_cons, !lookup_path_cons, lookup_insert_eq.
    rewrite IH.
    + destruct ps as [|k1 ps].
      { destruct Hpq. apply prefix_cons, prefix_nil. }
      destruct (d !! k) as [[| | | |d']|]; try done.
    + split; intros Hpre; [apply Hpq|apply Hqp]; by apply prefix_cons.
  - rewrite !lookup_path_cons.
    destruct ks as [|k' ks]; simpl; by rewrite lookup_insert_ne.
Qed.

Lemma fold_set_path_independent (l : list (string * value)) d p :
  Forall (λ kv, independent p (split_dot kv.1)) l →
  lookup_path
    (VDict (fold_left (λ d kv, set_path d (split_dot kv.1) kv.2) l d)) p
  = lookup_path (VDict d) p.
Proof.
  revert d. induction l as [|[k v] l IH]; intros d Hl; [done|].
  apply Forall_cons in Hl as [Hk Hl]. simpl.
  rewrite IH by done. by apply lookup_set_path_independent.
Qed.

(** In the record made from a sequence of assignments, the value of
    an assignment is at its path when no later assignment touches
    that path. *)
Lemma construct_lookup (before after : list (string * value)) k v :
  Forall (λ kv, independent (split_dot k) (split_dot kv.1)) after →
  lookup_path (VDict (construct (before ++ (k, v) :: after))) (split_dot k)
  = Some v.
Proof.
  intros Hafter. unfold construct. rewrite fold_left_app. simpl.
  rewrite fold_set_path_independent by done.
  apply lookup_set_path_same, split_dot_nonempty.
Qed.

(** A reference that begins with a character with which no key of
    the record begins is not a path of the record: it stands for
    itself. *)
Lemma item_get_other_head (item : record) c r :
  Ascii.eqb c "." = false →
  (∀ seg, item !! String c seg = None) →
  item_get item (String c r) = VStr (String c r).
Proof.
  intros Hc Hkeys. unfold item_get, get.
  destruct (split_dot_head c r Hc) as (seg & rest & ->).
  simpl. by rewrite Hkeys.
Qed.

Lemma isoformat_head t :
  ∃ n r, 0 ≤ n < 10
         ∧ Datetime.isoformat t = String (Datetime.digit_char n) r.
Proof.
  exists ((Datetime.year t / 10 ^ 3) mod 10). eexists.
  split; [by apply Z.mod_pos_bound|]. reflexivity.
Qed.

Lemma isoformat_length t :
  (19 ≤ String.length (Datetime.isoformat t))%nat.
Proof.
  unfold Datetime.isoformat.
  destruct (Datetime.microsecond t =? 0); simpl; lia.
Qed.
End dotdict_facts.

(** ** The RSS item builder *)

Section rss_facts.
Import Datetime DotDict PipeRssItemBuilder.

Lemma digit_head_not_key n :
  0 ≤ n < 10 →
  Ascii.eqb (digit_char n) "." = false
  ∧ ∀ seg, example_item !! String (digit_char n) seg = None.
Proof.
  intros Hn.
  assert (n = 0 ∨ n = 1 ∨ n = 2 ∨ n = 3 ∨ n = 4 ∨ n = 5 ∨ n = 6 ∨ n = 7
          ∨ n = 8 ∨ n = 9) as Hcases by lia.
  unfold example_item.
  repeat destruct Hcases as [->|Hcases]; try subst n;
    (split; [reflexivity|]; intros seg;
     rewrite lookup_insert_ne by done; by rewrite lookup_singleton_ne).
Qed.

Lemma item_get_isoformat t :
  item_get example_item (isoformat t) = VStr (isoformat t).
Proof.
  destruct (isoformat_head t) as (n & r & Hn & ->).
  destruct (digit_head_not_key n Hn) as [Hdot Hkeys].
  by apply item_get_other_head.
Qed.

(** The example of the specification, whatever the order in which
    the dictionary gives its entries, for a time stamp that is no
    path of the record. *)
Lemma parser_example_any_order (ts : string) (objconf : list (string * string))
    (kwargs : gmap string value) :
  item_get example_item ts = VStr ts →
  objconf ≡ₚ map_to_list (merge_defaults {[ "pubDate" := ts ]} example_conf) →
  parser example_item objconf false kwargs
  = Ok (VDict (example_feed ts), false).
Proof.
  intros Hts Hperm.
  assert (map_to_list (merge_defaults {[ "pubDate" := ts ]} example_conf)
          ≡ₚ [("guid", "id"); ("mediaThumbURL", "thumbnail"); ("pubDate", ts)])
    as Hlist.
  { unfold merge_defaults, example_conf.
    rewrite <- insert_union_l, <- insert_union_singleton_l.
    rewrite map_to_list_insert by done.
    rewrite map_to_list_insert by done.
    by rewrite map_to_list_singleton. }
  rewrite Hlist in Hperm. symmetry in Hperm.
  apply permutations_Permutation in Hperm.
  cbv [permutations interleave mbind list_bind app fmap list_fmap] in Hperm.
  repeat (apply elem_of_cons in Hperm as [->|Hperm]);
    [..|by apply elem_of_nil in Hperm];
    unfold parser; rewrite !fmap_cons, fmap_nil; cbn [fst snd];
    rewrite Hts; reflexivity.
Qed.
End rss_facts.

(** C7. For every entry [(k, v)] of the configuration the parser
    resolves [v] in two tiers, to the value of the record at the path
    [v] when the path is there and to the string [v] itself when it is
    not, and never raises; the value is assigned to the renamed key,
    and is what the record built holds at the renamed key when no
    later entry is assigned through or under that key. *)
Theorem rss_parser_two_tier (item : record) (objconf : list (string * string))
    (kwargs : gmap string value) :
  ∃ feed : record,
    PipeRssItemBuilder.parser item objconf false kwargs = Ok (VDict feed, false)
    ∧ feed = DotDict.construct
               ((λ kv, (PipeRssItemBuilder.RSS_get kv.1,
                        PipeRssItemBuilder.resolve_ref item kv.2)) <$> objconf)
    ∧ (∀ v x, DotDict.lookup_path (VDict item) (split_dot v) = Some x →
              PipeRssItemBuilder.item_get item v = x)
    ∧ (∀ v, DotDict.lookup_path (VDict item) (split_dot v) = None →
            PipeRssItemBuilder.item_get item v = VStr v)
    ∧ (∀ before k v after,
         objconf = before ++ (k, v) :: after →
         Forall (λ kv, PipeRssItemBuilder.independent
                         (split_dot (PipeRssItemBuilder.RSS_get k))
                         (split_dot (PipeRssItemBuilder.RSS_get kv.1))) after →
         DotDict.lookup_path (VDict feed)
           (split_dot (PipeRssItemBuilder.RSS_get k))
         = Some (PipeRssItemBuilder.resolve_ref item v)).
Proof.
  eexists. split_and!.
  - reflexivity.
  - reflexivity.
  - intros v x Hx. unfold PipeRssItemBuilder.item_get, DotDict.get. by rewrite Hx.
  - intros v Hv. unfold PipeRssItemBuilder.item_get, DotDict.get. by rewrite Hv.
  - intros before k v after -> Hafter.
    rewrite fmap_app, fmap_cons.
    change (PipeRssItemBuilder.item_get item (k, v).2)
      with (PipeRssItemBuilder.resolve_ref item v).
    apply construct_lookup. by apply Forall_fmap.
Qed.

Lemma rss_parser_two_tier_witness :
  ∃ feed : record,
    PipeRssItemBuilder.parser example_item
      [("guid", "id"); ("title", "heading"); ("mediaThumbURL", "thumbnail")]
      false ∅
    = Ok (VDict feed, false)
    ∧ DotDict.lookup_path (VDict feed) ["y:title"] = Some (VStr "heading")
    ∧ DotDict.lookup_path (VDict feed) ["y:id"] = Some (VStr "a1").
Proof.
  destruct (rss_parser_two_tier example_item
              [("guid", "id"); ("title", "heading"); ("mediaThumbURL", "thumbnail")]
              ∅) as (feed & Hrun & _ & _ & _ & Hfeed).
  exists feed. split; [exact Hrun|]. split.
  - refine (Hfeed [("guid", "id")] "title" "heading"
              [("mediaThumbURL", "thumbnail")] eq_refl _).
    repeat constructor; by intros [? [=]].
  - refine (Hfeed [] "guid" "id"
              [("title", "heading"); ("mediaThumbURL", "thumbnail")] eq_refl _).
    repeat constructor; by intros [? [=]].
Defined.

(** C6. With the defaults merged under the configuration
    [{guid: id, mediaThumbURL: thumbnail}], in whatever order the
    merged dictionary gives its entries, the parser with [skip] false
    makes of the record [{id: a1, thumbnail: image.png}] the record
    [{y:id: a1, media:thumbnail: {url: image.png}, pubDate: ts}], [ts]
    being the ISO time stamp of the clock reading held in [DEFAULTS],
    which is not empty; the keys are renamed through the table [RSS],
    a key that is not in the table is kept, and [pubDate] is the time
    stamp of [DEFAULTS] unless the configuration sets it. *)
Theorem rss_parser_example (now : Datetime.datetime)
    (objconf : list (string * string)) (kwargs : gmap string value) :
  Datetime.valid now →
  objconf ≡ₚ map_to_list (PipeRssItemBuilder.merge_defaults
                            (PipeRssItemBuilder.DEFAULTS now) example_conf) →
  PipeRssItemBuilder.parser example_item objconf false kwargs
  = Ok (VDict (example_feed (Datetime.isoformat now)), false)
  ∧ (19 ≤ String.length (Datetime.isoformat now))%nat
  ∧ PipeRssItemBuilder.RSS_get "title" = "y:title"
  ∧ PipeRssItemBuilder.RSS_get "guid" = "y:id"
  ∧ PipeRssItemBuilder.RSS_get "mediaThumbURL" = "media:thumbnail.url"
  ∧ PipeRssItemBuilder.RSS_get "mediaThumbHeight" = "media:thumbnail.height"
  ∧ PipeRssItemBuilder.RSS_get "mediaThumbWidth" = "media:thumbnail.width"
  ∧ PipeRssItemBuilder.RSS_get "mediaContentType" = "media:content.type"
  ∧ PipeRssItemBuilder.RSS_get "mediaContentURL" = "media:content.url"
  ∧ PipeRssItemBuilder.RSS_get "mediaContentHeight" = "media:content.height"
  ∧ PipeRssItemBuilder.RSS_get "mediaContentWidth" = "media:content.width"
  ∧ (∀ k, PipeRssItemBuilder.RSS !! k = None → PipeRssItemBuilder.RSS_get k = k)
  ∧ (∀ conf : gmap string string,
       conf !! "pubDate" = None →
       PipeRssItemBuilder.merge_defaults (PipeRssItemBuilder.DEFAULTS now) conf
         !! "pubDate" = Some (Datetime.isoformat now))
  ∧ (∀ (conf : gmap string string) v,
       conf !! "pubDate" = Some v →
       PipeRssItemBuilder.merge_defaults (PipeRssItemBuilder.DEFAULTS now) conf
         !! "pubDate" = Some v).
Proof.
  intros _ Hperm. split_and!; try reflexivity.
  - apply parser_example_any_order; [apply item_get_isoformat|done].
  - apply isoformat_length.
  - intros k Hk. unfold PipeRssItemBuilder.RSS_get. by rewrite Hk.
  - intros conf Hconf.
    unfold PipeRssItemBuilder.merge_defaults, PipeRssItemBuilder.DEFAULTS.
    rewrite lookup_union_r by done. apply lookup_singleton_eq.
  - intros conf v Hconf. unfold PipeRssItemBuilder.merge_defaults.
    by apply lookup_union_Some_l.
Qed.

Lemma rss_parser_example_witness :
  let now := Datetime.Datetime 2015 6 1 12 0 5 123456 in
  Datetime.valid now
  ∧ PipeRssItemBuilder.parser example_item
      (map_to_list (PipeRssItemBuilder.merge_defaults
                      (PipeRssItemBuilder.DEFAULTS now) example_conf))
      false ∅
    = Ok (VDict (example_feed "2015-06-01T12:00:05.123456"), false).
Proof.
  intros now.
  assert (Datetime.valid now) as Hvalid
    by (unfold Datetime.valid; repeat split; by vm_compute).
  split; [exact Hvalid|].
  exact (proj1 (rss_parser_example now _ ∅ Hvalid (Permutation_refl _))).
Defined.

(** ** The two entry points *)

Section dual_facts.
Import Wrapper.
Context {Item Conf ObjConf Kwargs Out : Type}.

(** The two forms of an aggregator run the same function on the
    same arguments. *)
Lemma operator_dual (resolve : Conf → Kwargs → result ObjConf)
    (f : list Item → ObjConf → list (Item * ObjConf) → result (list Out))
    stream conf kwargs :
  to_trace (fire (operator_async resolve f stream conf kwargs))
  = operator_sync resolve f stream conf kwargs.
Proof.
  unfold operator_async, operator_sync, fire, addCallback, maybeDeferred.
  by destruct (resolve conf kwargs).
Qed.

(** So do the two forms of a processor. *)
Lemma processor_dual (DEFAULTS : Conf) (merge : Conf → Conf → Conf)
    (resolve : Conf → Item → Kwargs → result ObjConf)
    (pass_if : Item → ObjConf → bool) (passthrough : Item → Out)
    (f : Item → ObjConf → bool → Kwargs → result (Out * bool))
    item conf kwargs :
  to_trace (fire (processor_async DEFAULTS merge resolve pass_if passthrough
                    f item conf kwargs))
  = processor_sync DEFAULTS merge resolve pass_if passthrough f item conf kwargs.
Proof.
  unfold processor_async, processor_sync, fire, addCallback, maybeDeferred,
    succeed.
  destruct (resolve (merge DEFAULTS conf) item kwargs) as [objconf|]; [|done].
  simpl. destruct (pass_if item objconf); [done|].
  by destruct (f item objconf false kwargs).
Qed.
End dual_facts.

(** C1. The two entry points of the tail pipe and of the RSS item
    builder are the same parser on the same arguments, and for every
    input and every configuration the asynchronous entry point
    resolves to the very sequence the synchronous entry point
    produces, element for element, or both fail with the same
    exception. *)
Theorem pipe_asyncPipe_equivalent :
  (∀ stream objconf tuples,
     PipeTail.pipe stream objconf tuples = PipeTail.parser stream objconf tuples
     ∧ PipeTail.asyncPipe stream objconf tuples
       = PipeTail.parser stream objconf tuples)
  ∧ (∀ item objconf skip kwargs,
       PipeRssItemBuilder.pipe item objconf skip kwargs
       = PipeRssItemBuilder.parser item objconf skip kwargs
       ∧ PipeRssItemBuilder.asyncPipe item objconf skip kwargs
         = PipeRssItemBuilder.parser item objconf skip kwargs)
  ∧ (∀ (Conf Kwargs : Type)
       (resolve : Conf → Kwargs → result (gmap string value))
       (stream : list record) (conf : Conf) (kwargs : Kwargs),
       Wrapper.to_trace
         (Wrapper.fire (Wrapper.operator_async resolve PipeTail.asyncPipe
                          stream conf kwargs))
       = Wrapper.operator_sync resolve PipeTail.pipe stream conf kwargs)
  ∧ (∀ (Conf : Type) (DEFAULTS : Conf) (merge : Conf → Conf → Conf)
       (resolve : Conf → record → gmap string value
                  → result (list (string * string)))
       (pass_if : record → list (string * string) → bool)
       (passthrough : record → value)
       (item : record) (conf : Conf) (kwargs : gmap string value),
       Wrapper.to_trace
         (Wrapper.fire (Wrapper.processor_async DEFAULTS merge resolve pass_if
                          passthrough PipeRssItemBuilder.asyncPipe
                          item conf kwargs))
       = Wrapper.processor_sync DEFAULTS merge resolve pass_if passthrough
           PipeRssItemBuilder.pipe item conf kwargs).
Proof.
  split_and!.
  - done.
  - done.
  - intros. apply operator_dual.
  - intros. apply processor_dual.
Qed.

(** * Further properties *)

(** ** The trailing window, further *)

Section tail_more.
Context {A : Type}.
Implicit Types (l : list A) (n m : nat).

Lemma last_n_last_n n m l :
  PipeTail.last_n m (PipeTail.last_n n l) = PipeTail.last_n (m `min` n) l.
Proof.
  unfold PipeTail.last_n. rewrite length_drop, drop_drop. f_equal. lia.
Qed.

Lemma last_n_app_r n l1 l2 :
  (n ≤ length l2)%nat → PipeTail.last_n n (l1 ++ l2) = PipeTail.last_n n l2.
Proof.
  intros Hn. unfold PipeTail.last_n. rewrite length_app.
  rewrite drop_app_ge by lia. f_equal. lia.
Qed.
End tail_more.

(** What the parser does once the count is read and coerced. *)
Lemma tail_parser_deque (stream : list record) (objconf : gmap string value)
    (tuples : list (record * gmap string value)) (count : value) (N : Z) :
  objconf !! "count" = Some count →
  int count = Ok N →
  PipeTail.parser stream objconf tuples = deque stream N.
Proof.
  intros Hcount Hint. unfold PipeTail.parser, PipeTail.getattr.
  rewrite Hcount. simpl. by rewrite Hint.
Qed.



(** X2. Two tail pipes in a row are one tail pipe with the smaller
    count: the parser with count [M], run on what the parser with
    count [N] returned, returns the last [min N M] records of the
    stream. *)
Theorem tail_parser_twice (stream : list record)
    (conf1 conf2 : gmap string value)
    (tuples1 tuples2 : list (record * gmap string value))
    (count1 count2 : value) (N M : Z) :
  conf1 !! "count" = Some count1 → int count1 = Ok N →
  conf2 !! "count" = Some count2 → int count2 = Ok M →
  0 ≤ N ≤ PY_SSIZE_T_MAX → 0 ≤ M ≤ PY_SSIZE_T_MAX →
  ∃ out, PipeTail.parser stream conf1 tuples1 = Ok out
         ∧ PipeTail.parser out conf2 tuples2
           = Ok (PipeTail.last_n (Z.to_nat (N `min` M)) stream).
Proof.
  intros Hc1 Hi1 Hc2 Hi2 HN HM.
  exists (PipeTail.last_n (Z.to_nat N) stream). split.
  - rewrite (tail_parser_deque _ _ _ _ _ Hc1 Hi1). by apply deque_last_n.
  - rewrite (tail_parser_deque _ _ _ _ _ Hc2 Hi2), deque_last_n by done.
    rewrite last_n_last_n. do 2 f_equal. lia.
Qed.

Lemma tail_parser_twice_witness :
  let conf1 : gmap string value := {[ "count" := VInt 3 ]} in
  let conf2 : gmap string value := {[ "count" := VStr "2" ]} in
  ∃ out, PipeTail.parser (x_item <$> [0; 1; 2; 3; 4]) conf1 [] = Ok out
         ∧ PipeTail.parser out conf2 [] = Ok [x_item 3; x_item 4].
Proof.
  intros conf1 conf2.
  assert (0 ≤ 3 ≤ PY_SSIZE_T_MAX) as H3 by (unfold PY_SSIZE_T_MAX; lia).
  assert (0 ≤ 2 ≤ PY_SSIZE_T_MAX) as H2 by (unfold PY_SSIZE_T_MAX; lia).
  exact (tail_parser_twice (x_item <$> [0; 1; 2; 3; 4]) conf1 conf2 [] []
           (VInt 3) (VStr "2") 3 2 eq_refl eq_refl eq_refl eq_refl H3 H2).
Defined.

(** X3. Only the end of the stream matters: when the count is at most
    the length of [later], the parser returns on [earlier ++ later]
    what it returns on [later] alone. *)
Theorem tail_parser_forgets (earlier later : list record)
    (objconf : gmap string value)
    (tuples tuples' : list (record * gmap string value))
    (count : value) (N : Z) :
  objconf !! "count" = Some count →
  int count = Ok N →
  N ≤ Z.of_nat (length later) →
  PipeTail.parser (earlier ++ later) objconf tuples
  = PipeTail.parser later objconf tuples'.
Proof.
  intros Hcount Hint HN.
  rewrite !(tail_parser_deque _ _ _ _ _ Hcount Hint).
  destruct (Z.ltb_spec N 0) as [Hneg|Hpos].
  { by rewrite !deque_negative. }
  destruct (Z.ltb_spec PY_SSIZE_T_MAX N) as [Hbig|Hfit].
  { unfold deque. destruct (Z.ltb_spec N 0); [lia|].
    by destruct (Z.ltb_spec PY_SSIZE_T_MAX N); [|lia]. }
  rewrite !deque_last_n by lia. by rewrite last_n_app_r by lia.
Qed.

Lemma tail_parser_forgets_witness :
  let conf : gmap string value := {[ "count" := VInt 2 ]} in
  PipeTail.parser (x_item <$> [0; 1; 2; 3; 4]) conf []
  = PipeTail.parser (x_item <$> [2; 3; 4]) conf [].
Proof.
  intros conf.
  refine (tail_parser_forgets (x_item <$> [0; 1]) (x_item <$> [2; 3; 4]) conf
            [] [] (VInt 2) 2 eq_refl eq_refl _).
  simpl. lia.
Defined.

(** ** The uniqueness filter, further *)

Section uniq_more.
Import PipeUniq.
Variable field : string.
Implicit Types (items : list record) (seen : gset hkey).

Lemma unique_loop_sublist items seen :
  yielded (unique_loop seen items field) `sublist_of` items.
Proof.
  revert seen. induction items as [|item items IH]; intros seen; [done|].
  simpl. destruct (hash_key (DotDict.get item field VNone)) as [k|e].
  - destruct (decide (k ∉ seen)); simpl.
    + by apply sublist_skip.
    + by apply sublist_cons.
  - apply sublist_nil_l.
Qed.

Lemma unique_loop_prefix items more seen :
  yielded (unique_loop seen items field)
  `prefix_of` yielded (unique_loop seen (items ++ more) field).
Proof.
  revert seen. induction items as [|item items IH]; intros seen.
  - apply prefix_nil.
  - simpl. destruct (hash_key (DotDict.get item field VNone)) as [k|e]; [|done].
    destruct (decide (k ∉ seen)); simpl; [by apply prefix_cons|done].
Qed.

(** The keys of what the loop gives: one for each record, all
    different, none in the set the loop began with. *)
Lemma unique_loop_keys items seen :
  ∃ ks, Forall2 (λ item k, hash_key (field_value item field) = Ok k)
          (yielded (unique_loop seen items field)) ks
        ∧ NoDup ks ∧ ∀ k, k ∈ ks → k ∉ seen.
Proof.
  revert seen. induction items as [|item items IH]; intros seen.
  - exists []. split_and!; [constructor|constructor|set_solver].
  - simpl. fold (field_value item field).
    destruct (hash_key (field_value item field)) as [k|e] eqn:Hk.
    + destruct (decide (k ∉ seen)) as [Hnew|Hold].
      * destruct (IH ({[k]} ∪ seen)) as (ks & Hks & Hnd & Hout).
        exists (k :: ks). simpl. split_and!.
        -- by constructor.
        -- constructor; [|done]. intros Hin. apply Hout in Hin. set_solver.
        -- intros k' [->|Hin]%elem_of_cons; [done|].
           apply Hout in Hin. set_solver.
      * apply IH.
    + exists []. split_and!; [constructor|constructor|set_solver].
Qed.

Lemma unique_loop_stops pre bad post seen e :
  Forall (λ item, hashable (field_value item field)) pre →
  hash_key (field_value bad field) = Raise e →
  unique_loop seen (pre ++ bad :: post) field
  = Trace (yielded (unique_loop seen pre field)) (Some e).
Proof.
  intros Hpre Hbad. revert seen.
  induction Hpre as [|item pre [k Hk] _ IH]; intros seen; simpl.
  - fold (field_value bad field). by rewrite Hbad.
  - fold (field_value item field). rewrite Hk.
    destruct (decide (k ∉ seen)); [|done].
    rewrite IH. done.
Qed.

(** Every record met has its key in the set or among the keys of what
    the loop gives. *)
Lemma unique_loop_covers items seen item k :
  Forall (λ item, hashable (field_value item field)) items →
  item ∈ items →
  hash_key (field_value item field) = Ok k →
  k ∈ seen
  ∨ ∃ o, o ∈ yielded (unique_loop seen items field)
         ∧ hash_key (field_value o field) = Ok k.
Proof.
  intros Hhash. revert seen.
  induction Hhash as [|x items [kx Hkx] _ IH]; intros seen Hin Hk.
  - by apply elem_of_nil in Hin.
  - simpl. fold (field_value x field). rewrite Hkx.
    apply elem_of_cons in Hin as [->|Hin].
    + replace kx with k by congruence.
      destruct (decide (k ∉ seen)) as [Hnew|Hold].
      * right. exists x. split; [set_solver|congruence].
      * left. by apply dec_stable in Hold.
    + destruct (decide (kx ∉ seen)) as [Hnew|Hold].
      * destruct (IH ({[kx]} ∪ seen) Hin Hk) as [Hs|(o & Ho & Hko)].
        -- apply elem_of_union in Hs as [->%elem_of_singleton|Hs]; [|by left].
           right. exists x. split; [set_solver|done].
        -- right. exists o. split; [set_solver|done].
      * by apply IH.
Qed.

(** A stream whose keys are all different, and none in the set, goes
    through whole. *)
Lemma unique_loop_distinct items ks seen :
  Forall2 (λ item k, hash_key (field_value item field) = Ok k) items ks →
  NoDup ks → (∀ k, k ∈ ks → k ∉ seen) →
  unique_loop seen items field = Trace items None.
Proof.
  intros Hks. revert seen.
  induction Hks as [|item k items ks Hk _ IH]; intros seen Hnd Hout; [done|].
  simpl. fold (field_value item field). rewrite Hk.
  apply NoDup_cons in Hnd as [Hk_new Hnd].
  rewrite decide_True by (apply Hout; set_solver).
  rewrite IH; [done|done|].
  intros k' Hk'. assert (k' ∉ seen) by (apply Hout; set_solver). set_solver.
Qed.

Lemma same_value_keys v w :
  same_value v w = true ↔ ∃ k, hash_key v = Ok k ∧ hash_key w = Ok k.
Proof.
  unfold same_value.
  destruct (hash_key v) as [a|], (hash_key w) as [b|];
    try (split; [done|by intros (? & ? & ?)]).
  rewrite bool_decide_eq_true. split.
  - intros ->. eauto.
  - intros (k & [= ->] & [= ->]). done.
Qed.

(** The keys of a list of records are all different when no two
    records at different places have the same value. *)
Lemma distinct_keys items ks :
  Forall2 (λ item k, hash_key (field_value item field) = Ok k) items ks →
  NoDup ks
  ↔ ∀ i j a b, items !! i = Some a → items !! j = Some b →
               same_value (field_value a field) (field_value b field) = true →
               i = j.
Proof.
  intros Hks. rewrite NoDup_alt. split.
  - intros Hnd i j a b Ha Hb Hsame.
    apply same_value_keys in Hsame as (k & Hka & Hkb).
    destruct (Forall2_lookup_l _ _ _ _ _ Hks Ha) as (ka & Hia & Hka').
    destruct (Forall2_lookup_l _ _ _ _ _ Hks Hb) as (kb & Hjb & Hkb').
    apply (Hnd i j k); congruence.
  - intros Hdist i j k Hi Hj.
    destruct (Forall2_lookup_r _ _ _ _ _ Hks Hi) as (a & Ha & Hka).
    destruct (Forall2_lookup_r _ _ _ _ _ Hks Hj) as (b & Hb & Hkb).
    apply (Hdist i j a b Ha Hb). apply same_value_keys. eauto.
Qed.

Lemma hashable_keys items :
  Forall (λ item, hashable (field_value item field)) items →
  ∃ ks, Forall2 (λ item k, hash_key (field_value item field) = Ok k) items ks.
Proof.
  induction 1 as [|item items [k Hk] _ [ks IH]].
  - exists []. constructor.
  - exists (k :: ks). by constructor.
Qed.
End uniq_more.

(** X4. For every stream, whatever its values, what the filter
    forwards is a sublist of the stream, every forwarded record has a
    value that can be hashed, and no two forwarded records have equal
    values at the field. *)
Theorem unique_items_no_duplicates (items : list record) (field : string) :
  let out := yielded (PipeUniq.unique_items items field) in
  out `sublist_of` items
  ∧ Forall (λ item, PipeUniq.hashable (PipeUniq.field_value item field)) out
  ∧ ∀ i j a b, out !! i = Some a → out !! j = Some b →
      PipeUniq.same_value (PipeUniq.field_value a field)
                          (PipeUniq.field_value b field) = true →
      i = j.
Proof.
  intros out. subst out. unfold PipeUniq.unique_items.
  destruct (unique_loop_keys field items ∅) as (ks & Hks & Hnd & _).
  split_and!.
  - apply unique_loop_sublist.
  - eapply Forall2_Forall_l; [exact Hks|].
    apply Forall_true. intros k item Hk. by exists k.
  - by apply (distinct_keys field _ ks).
Qed.

(** X5. A record whose value at the field is a dictionary stops the
    filter with [TypeError]: the first occurrences among the records
    before it have been forwarded, it and the records after it are
    not. *)
Theorem unique_items_unhashable (pre post : list record) (bad : record)
    (field : string) (d : gmap string value) :
  Forall (λ item, PipeUniq.hashable (PipeUniq.field_value item field)) pre →
  PipeUniq.field_value bad field = VDict d →
  PipeUniq.unique_items (pre ++ bad :: post) field
  = Trace (PipeUniq.keep_first pre field) (Some TypeError).
Proof.
  intros Hpre Hbad. unfold PipeUniq.unique_items.
  rewrite (unique_loop_stops field pre bad post ∅ TypeError Hpre)
    by (by rewrite Hbad).
  rewrite (unique_loop_keep_first field pre [] ∅) by (done || set_solver).
  done.
Qed.

Lemma unique_items_unhashable_witness :
  let bad : record := {[ "id" := VDict {[ "n" := VInt 1 ]} ]} in
  PipeUniq.unique_items [id_item 1; id_item 1; bad; id_item 2] "id"
  = Trace [id_item 1] (Some TypeError).
Proof.
  intros bad.
  refine (unique_items_unhashable [id_item 1; id_item 1] [id_item 2] bad "id"
            {[ "n" := VInt 1 ]} _ eq_refl).
  repeat constructor; eexists; reflexivity.
Defined.

(** X6. No value is lost: on a stream whose values can all be hashed,
    for every record of the stream a record with an equal value at the
    field is forwarded. *)
Theorem unique_items_keeps_every_value (items : list record) (field : string)
    (item : record) :
  Forall (λ item, PipeUniq.hashable (PipeUniq.field_value item field)) items →
  item ∈ items →
  ∃ o, o ∈ yielded (PipeUniq.unique_items items field)
       ∧ PipeUniq.same_value (PipeUniq.field_value o field)
                             (PipeUniq.field_value item field) = true.
Proof.
  intros Hhash Hin.
  assert (PipeUniq.hashable (PipeUniq.field_value item field)) as [k Hk].
  { rewrite Forall_forall in Hhash. by apply Hhash. }
  destruct (unique_loop_covers field items ∅ item k Hhash Hin Hk)
    as [Hs|(o & Ho & Hko)]; [set_solver|].
  exists o. split; [done|]. apply same_value_keys. eauto.
Qed.

Lemma unique_items_keeps_every_value_witness :
  ∃ o, o ∈ yielded (PipeUniq.unique_items
                      [id_item 1; {[ "id" := VBool true ]}; id_item 2] "id")
       ∧ PipeUniq.same_value (PipeUniq.field_value o "id")
           (PipeUniq.field_value {[ "id" := VBool true ]} "id") = true.
Proof.
  refine (unique_items_keeps_every_value
            [id_item 1; {[ "id" := VBool true ]}; id_item 2] "id"
            {[ "id" := VBool true ]} _ _).
  - repeat constructor; eexists; reflexivity.
  - apply elem_of_cons. right. apply elem_of_cons. by left.
Defined.

(** X7. The filter works as the stream comes: what it forwards of a
    stream is the beginning of what it forwards of any longer
    stream. *)
Theorem unique_items_incremental (items more : list record) (field : string) :
  yielded (PipeUniq.unique_items items field)
  `prefix_of` yielded (PipeUniq.unique_items (items ++ more) field).
Proof. apply unique_loop_prefix. Qed.

(** X8. The streams the filter gives back whole are those whose
    values can all be hashed and are all different. *)
Theorem unique_items_fixed_points (items : list record) (field : string) :
  PipeUniq.unique_items items field = Trace items None
  ↔ Forall (λ item, PipeUniq.hashable (PipeUniq.field_value item field)) items
    ∧ ∀ i j a b, items !! i = Some a → items !! j = Some b →
        PipeUniq.same_value (PipeUniq.field_value a field)
                            (PipeUniq.field_value b field) = true →
        i = j.
Proof.
  split.
  - intros Hrun. unfold PipeUniq.unique_items in Hrun.
    destruct (unique_loop_keys field items ∅) as (ks & Hks & Hnd & _).
    rewrite Hrun in Hks. simpl in Hks. split.
    + eapply Forall2_Forall_l; [exact Hks|].
      apply Forall_true. intros k item Hk. by exists k.
    + by apply (distinct_keys field _ ks).
  - intros [Hhash Hdist].
    destruct (hashable_keys field items Hhash) as [ks Hks].
    apply (unique_loop_distinct field items ks); [done| |set_solver].
    by apply (distinct_keys field items ks).
Qed.

Lemma unique_items_fixed_points_witness :
  PipeUniq.unique_items [id_item 1; ∅; id_item 2] "id"
  = Trace [id_item 1; ∅; id_item 2] None.
Proof.
  apply (proj2 (unique_items_fixed_points [id_item 1; ∅; id_item 2] "id")).
  split.
  - repeat constructor; eexists; reflexivity.
  - intros i j a b Ha Hb.
    destruct i as [|[|[|i]]]; destruct j as [|[|[|j]]];
      simpl in Ha, Hb; try done;
      injection Ha as <-; injection Hb as <-; by vm_compute.
Defined.

(** X9. Without the bypass the uniqueness pipe is the filter on the
    configured field: its output has no two records with equal values
    at the field, and is a sublist of its input. *)
Theorem pipe_uniq_filters {Conf Arg : Type} (get_pass : option Arg → bool)
    (parse_conf : Conf → gmap string Arg → result (gmap string value))
    (_INPUT : list record) (conf : Conf) (kwargs : gmap string Arg)
    (parsed : gmap string value) (field : string) :
  get_pass (kwargs !! "pass_if") = false →
  parse_conf conf (delete "pass_if" kwargs) = Ok parsed →
  parsed !! "field" = Some (VStr field) →
  ∃ out, PipeUniq.pipe_uniq get_pass parse_conf _INPUT conf kwargs = Ok out
         ∧ out = PipeUniq.unique_items _INPUT field
         ∧ yielded out `sublist_of` _INPUT
         ∧ ∀ i j a b, yielded out !! i = Some a → yielded out !! j = Some b →
             PipeUniq.same_value (PipeUniq.field_value a field)
                                 (PipeUniq.field_value b field) = true →
             i = j.
Proof.
  intros Hpass Hconf Hfield. eexists. split.
  - unfold PipeUniq.pipe_uniq, PipeTail.getattr.
    rewrite Hconf, Hpass. simpl. by rewrite Hfield.
  - split; [done|]. unfold PipeUniq.unique_items.
    destruct (unique_loop_keys field _INPUT ∅) as (ks & Hks & Hnd & _).
    split; [apply unique_loop_sublist|].
    by apply (distinct_keys field _ ks).
Qed.

Lemma pipe_uniq_filters_witness :
  let get_pass := λ test : option bool, default false test in
  let parse_conf := λ (_ : unit) (_ : gmap string bool),
                      Ok ({[ "field" := VStr "id" ]} : gmap string value) in
  ∃ out, PipeUniq.pipe_uniq get_pass parse_conf
           [id_item 1; id_item 1; ∅; ∅] () ∅ = Ok out
         ∧ yielded out = [id_item 1; ∅].
Proof.
  intros get_pass parse_conf.
  assert (get_pass ((∅ : gmap string bool) !! "pass_if") = false) as Hpass
    by reflexivity.
  assert (parse_conf () (delete "pass_if" (∅ : gmap string bool))
          = Ok {[ "field" := VStr "id" ]}) as Hconf by reflexivity.
  destruct (pipe_uniq_filters get_pass parse_conf [id_item 1; id_item 1; ∅; ∅]
              () ∅ {[ "field" := VStr "id" ]} "id" Hpass Hconf eq_refl)
    as (out & Hrun & -> & _).
  eexists. split; [exact Hrun|reflexivity].
Defined.

(** ** The date builder, further *)

Section datetime_more.
Import Datetime.

Lemma add_days_overflow t n :
  999999999 < Z.abs n ∨ toordinal t + n < 1 ∨ MAXORDINAL < toordinal t + n →
  add_days t n = Raise OverflowError.
Proof.
  intros Hout. unfold add_days.
  destruct (Z.ltb_spec 999999999 (Z.abs n)); [done|].
  destruct (Z.ltb_spec 0 (toordinal t + n)); simpl; [|done].
  destruct (Z.leb_spec (toordinal t + n) MAXORDINAL); [lia|done].
Qed.


Lemma int_str_error s e : int (VStr s) = Raise e → e = ValueError.
Proof.
  simpl. unfold int_of_string.
  repeat case_match; congruence.
Qed.
End datetime_more.

Section datebuilder_more.
Import Datetime PipeDateBuilder.
Context {Kwargs : Type}.
Variable clock : nat → datetime.
Variable get_value : value → record → Kwargs → result value.
Variable ALTERNATIVE_DATE_FORMATS : list string.
Variable strptime : string → string → result datetime.
Variable SWITCH : gmap string pyobj.

Local Abbreviation build_date :=
  (build_date clock get_value ALTERNATIVE_DATE_FORMATS strptime SWITCH).
Local Abbreviation datebuilder_loop :=
  (datebuilder_loop clock get_value ALTERNATIVE_DATE_FORMATS strptime SWITCH).

Lemma cbind_ok {A B} (m : clocked A) (k : A → clocked B) n b n' :
  cbind m k n = (Ok b, n') →
  ∃ a n1, m n = (Ok a, n1) ∧ k a n1 = (Ok b, n').
Proof.
  unfold cbind. destruct (m n) as [[a|e] n1]; [eauto|done].
Qed.

(** The formats and [strptime] have no part in the body of the loop. *)
Lemma build_date_formats_irrelevant formats' strptime' conf item kwargs n :
  build_date conf item kwargs n
  = PipeDateBuilder.build_date clock get_value formats' strptime' SWITCH
      conf item kwargs n.
Proof. reflexivity. Qed.

Lemma datebuilder_loop_formats_irrelevant formats' strptime' conf items kwargs n :
  datebuilder_loop conf items kwargs n
  = PipeDateBuilder.datebuilder_loop clock get_value formats' strptime' SWITCH
      conf items kwargs n.
Proof.
  revert n. induction items as [|item items IH]; intros n; [done|].
  simpl. rewrite (build_date_formats_irrelevant formats' strptime').
  destruct (PipeDateBuilder.build_date _ _ _ _ _ _ _ _ _) as [[date|e] n1];
    [|done].
  by rewrite IH.
Qed.

(** What the body of the loop gives is a [struct_time], and the clock
    does not go back. *)
Lemma build_date_struct_time conf item kwargs n o n' :
  build_date conf item kwargs n = (Ok o, n') → ∃ st, o = OTime st.
Proof.
  unfold PipeDateBuilder.build_date. intros H.
  apply cbind_ok in H as (d & n1 & _ & H).
  apply cbind_ok in H as (v & n2 & _ & H).
  apply cbind_ok in H as (date & n3 & _ & H).
  apply cbind_ok in H as (st & n4 & _ & H).
  injection H as <- _. by exists st.
Qed.

Lemma datebuilder_loop_shape conf items kwargs n :
  let t := (datebuilder_loop conf items kwargs n).1 in
  Forall (λ o, ∃ st, o = OTime st) (yielded t)
  ∧ (raised t = None → length (yielded t) = length items)
  ∧ (raised t ≠ None → (length (yielded t) < length items)%nat).
Proof.
  revert n. induction items as [|item items IH]; intros n; simpl.
  - split_and!; [constructor|done|done].
  - destruct (build_date conf item kwargs n) as [[date|e] n1] eqn:Hb.
    + specialize (IH n1).
      destruct (datebuilder_loop conf items kwargs n1) as [t n2].
      simpl in *. destruct IH as (Hall & Hok & Hbad). split_and!.
      * constructor; [by eapply build_date_struct_time|done].
      * intros Hr. by rewrite Hok.
      * intros Hr. specialize (Hbad Hr). lia.
    + simpl. split_and!; [constructor|done|lia].
Qed.

(** A stream in two parts. *)
Lemma datebuilder_loop_app conf items more kwargs n :
  datebuilder_loop conf (items ++ more) kwargs n
  = let '(t, n1) := datebuilder_loop conf items kwargs n in
    match raised t with
    | None =>
        let '(t', n2) := datebuilder_loop conf more kwargs n1 in
        (Trace (yielded t ++ yielded t') (raised t'), n2)
    | Some e => (t, n1)
    end.
Proof.
  revert n. induction items as [|item items IH]; intros n; simpl.
  - by destruct (datebuilder_loop conf more kwargs n) as [[ys r] n2].
  - destruct (build_date conf item kwargs n) as [[date|e] n1]; [|done].
    rewrite IH.
    destruct (datebuilder_loop conf items kwargs n1) as [[ys r] n2]. simpl.
    destruct r as [e|]; [done|].
    by destruct (datebuilder_loop conf more kwargs n2) as [[ys' r'] n3].
Qed.

(** The first item decides whether anything is yielded. *)
Lemma datebuilder_loop_raise conf item rest kwargs n e n' :
  build_date conf item kwargs n = (Raise e, n') →
  datebuilder_loop conf (item :: rest) kwargs n = (Trace [] (Some e), n').
Proof. intros Hb. simpl. by rewrite Hb. Qed.
End datebuilder_more.

(** The table as made when the module is loaded. *)
Lemma SWITCH_init_inv (clock : nat → Datetime.datetime) m SWITCH m' :
  PipeDateBuilder.SWITCH_init clock m = (Ok SWITCH, m') →
  ∃ t1 t2,
    Datetime.add_days (clock (S m)) 1 = Ok t1
    ∧ Datetime.add_days (clock (S (S m))) (-1) = Ok t2
    ∧ m' = (4 + m)%nat
    ∧ SWITCH = <["today" := PipeDateBuilder.ODatetime (clock m)]>
               (<["tomorrow" := PipeDateBuilder.ODatetime t1]>
                (<["yesterday" := PipeDateBuilder.ODatetime t2]>
                 (<["now" := PipeDateBuilder.OTime
                               (Datetime.timetuple (clock (S (S (S m)))))]> ∅))).
Proof.
  unfold PipeDateBuilder.SWITCH_init, PipeDateBuilder.cbind,
    PipeDateBuilder.lift, PipeDateBuilder.today, PipeDateBuilder.now,
    PipeDateBuilder.cret.
  destruct (Datetime.add_days (clock (S m)) 1) as [t1|]; [|done].
  destruct (Datetime.add_days (clock (S (S m))) (-1)) as [t2|]; [|done].
  intros [= <- <-]. by exists t1, t2.
Qed.

Section datebuilder_errors.
Import Datetime PipeDateBuilder.
Context {Kwargs : Type}.
Variable clock : nat → datetime.
Variable get_value : value → record → Kwargs → result value.
Variable ALTERNATIVE_DATE_FORMATS : list string.
Variable strptime : string → string → result datetime.
Variable SWITCH : gmap string pyobj.
Variables (conf item : record) (kwargs : Kwargs) (d : value) (s : string).
Hypothesis Hconf : conf !! "DATE" = Some d.
Hypothesis Hget : get_value d item kwargs = Ok (VStr s).

(** A count that is no integer: the exception of [int], before the
    clock is read. *)
Lemma build_date_count_error n e :
  has_day_suffix (lower s) || has_year_suffix (lower s) = true →
  int (VStr (split_space_first (lower s))) = Raise e →
  PipeDateBuilder.build_date clock get_value ALTERNATIVE_DATE_FORMATS strptime
    SWITCH conf item kwargs n
  = (Raise e, n).
Proof.
  intros Hsuf Hint.
  unfold PipeDateBuilder.build_date, cbind, lift, today, cret.
  rewrite Hconf, Hget. fold (has_day_suffix (lower s)).
  fold (has_year_suffix (lower s)).
  destruct (has_day_suffix (lower s)); [by rewrite Hint|].
  simpl in Hsuf. by rewrite Hsuf, Hint.
Qed.
End datebuilder_errors.

(** X10. The alternative formats are never tried: for every stream,
    configuration and table, the pipe gives the same whatever the
    formats are and whatever [strptime] does. *)
Theorem datebuilder_never_parses {Kwargs : Type}
    (clock : nat → Datetime.datetime)
    (get_value : value → record → Kwargs → result value)
    (formats formats' : list string)
    (strptime strptime' : string → string → result Datetime.datetime)
    (SWITCH : gmap string PipeDateBuilder.pyobj)
    (_INPUT : list record) (conf : record) (kwargs : Kwargs) (n : nat) :
  PipeDateBuilder.pipe_datebuilder clock get_value formats strptime SWITCH
    _INPUT conf kwargs n
  = PipeDateBuilder.pipe_datebuilder clock get_value formats' strptime' SWITCH
      _INPUT conf kwargs n.
Proof. apply datebuilder_loop_formats_irrelevant. Qed.

(** X11. The pipe yields one date for each item, in the order of the
    items, until an item fails: every object yielded is a
    [struct_time], a run that ends without exception has yielded as
    many as there are items, and a run stopped by an exception fewer. *)
Theorem datebuilder_one_date_per_item {Kwargs : Type}
    (clock : nat → Datetime.datetime)
    (get_value : value → record → Kwargs → result value)
    (formats : list string)
    (strptime : string → string → result Datetime.datetime)
    (SWITCH : gmap string PipeDateBuilder.pyobj)
    (_INPUT : list record) (conf : record) (kwargs : Kwargs) (n : nat) :
  let t := (PipeDateBuilder.pipe_datebuilder clock get_value formats strptime
              SWITCH _INPUT conf kwargs n).1 in
  Forall (λ o, ∃ st, o = PipeDateBuilder.OTime st) (yielded t)
  ∧ (raised t = None → length (yielded t) = length _INPUT)
  ∧ (raised t ≠ None → (length (yielded t) < length _INPUT)%nat).
Proof. apply datebuilder_loop_shape. Qed.

(** X12. A stream in two parts: the pipe on [items ++ more] yields
    what it yields on [items] and, if that went without exception,
    then what it yields on [more] with the clock where the first part
    left it; after an exception nothing more is processed. *)
Theorem datebuilder_stream_in_two_parts {Kwargs : Type}
    (clock : nat → Datetime.datetime)
    (get_value : value → record → Kwargs → result value)
    (formats : list string)
    (strptime : string → string → result Datetime.datetime)
    (SWITCH : gmap string PipeDateBuilder.pyobj)
    (items more : list record) (conf : record) (kwargs : Kwargs) (n : nat) :
  let run := PipeDateBuilder.pipe_datebuilder clock get_value formats strptime
               SWITCH in
  run (items ++ more) conf kwargs n
  = let '(t, n1) := run items conf kwargs n in
    match raised t with
    | None =>
        let '(t', n2) := run more conf kwargs n1 in
        (Trace (yielded t ++ yielded t') (raised t'), n2)
    | Some e => (t, n1)
    end.
Proof. apply datebuilder_loop_app. Qed.

(** X13. With the table as the module makes it, of all the
    expressions without suffix exactly [today], [tomorrow] and
    [yesterday] yield a date; every other one, [now] among them,
    stops the pipe with [AttributeError]. *)
Theorem datebuilder_keywords {Kwargs : Type}
    (clock : nat → Datetime.datetime)
    (get_value : value → record → Kwargs → result value)
    (formats : list string)
    (strptime : string → string → result Datetime.datetime)
    (SWITCH : gmap string PipeDateBuilder.pyobj)
    (conf item : record) (rest : list record) (kwargs : Kwargs)
    (d : value) (s : string) (m m' n : nat) :
  PipeDateBuilder.SWITCH_init clock m = (Ok SWITCH, m') →
  conf !! "DATE" = Some d →
  get_value d item kwargs = Ok (VStr s) →
  PipeDateBuilder.has_day_suffix (lower s) = false →
  PipeDateBuilder.has_year_suffix (lower s) = false →
  let run := PipeDateBuilder.pipe_datebuilder clock get_value formats strptime
               SWITCH in
  (lower s ∈ ["today"; "tomorrow"; "yesterday"] →
   ∃ t, run [item] conf kwargs n
        = (Trace [PipeDateBuilder.OTime (Datetime.timetuple t)] None, n))
  ∧ (lower s ∉ ["today"; "tomorrow"; "yesterday"] →
     run (item :: rest) conf kwargs n = (Trace [] (Some AttributeError), n)).
Proof.
  intros Hinit Hconf Hget Hday Hyear run. subst run.
  destruct (SWITCH_init_inv clock m SWITCH m' Hinit)
    as (t1 & t2 & _ & _ & _ & HSW).
  pose proof (build_date_keyword clock get_value formats strptime SWITCH conf
                item kwargs d s Hconf Hget n Hday Hyear) as Hb.
  split.
  - intros Hkey.
    assert (∃ t, SWITCH !! lower s = Some (PipeDateBuilder.ODatetime t))
      as [t Ht].
    { assert (lower s = "today" ∨ lower s = "tomorrow" ∨ lower s = "yesterday")
        as [Hs|[Hs|Hs]] by set_solver;
        rewrite HSW, Hs; eexists; reflexivity. }
    exists t. rewrite Ht in Hb.
    by rewrite (pipe_datebuilder_one clock get_value formats strptime SWITCH
                  conf item kwargs n _ _ Hb).
  - intros Hkey.
    apply (datebuilder_loop_raise clock get_value formats strptime).
    rewrite Hb, HSW.
    rewrite !lookup_insert_ne
      by (intros Heq; apply Hkey; rewrite <- Heq; set_solver).
    destruct (decide (lower s = "now")) as [->|Hnow].
    + by rewrite lookup_insert_eq.
    + by rewrite lookup_insert_ne, lookup_empty by done.
Qed.

Lemma datebuilder_keywords_witness :
  example_datebuilder "Now" = (Trace [] (Some AttributeError), 4%nat)
  ∧ ∃ t, example_datebuilder "Tomorrow"
         = (Trace [PipeDateBuilder.OTime (Datetime.timetuple t)] None, 4%nat).
Proof.
  split.
  - refine (proj2 (datebuilder_keywords example_clock example_get_value
             ["%Y-%m-%d"] example_strptime example_SWITCH
             {[ "DATE" := VStr "Now" ]} ∅ [] () (VStr "Now") "Now"
             0%nat 4%nat 4%nat eq_refl eq_refl eq_refl eq_refl eq_refl) _).
    intros Hin. repeat (apply elem_of_cons in Hin as [[=]|Hin]).
    by apply elem_of_nil in Hin.
  - refine (proj1 (datebuilder_keywords example_clock example_get_value
             ["%Y-%m-%d"] example_strptime example_SWITCH
             {[ "DATE" := VStr "Tomorrow" ]} ∅ [] () (VStr "Tomorrow")
             "Tomorrow" 0%nat 4%nat 4%nat eq_refl eq_refl eq_refl eq_refl
             eq_refl) _).
    apply elem_of_cons. right. apply elem_of_cons. by left.
Defined.

(** X14. Expressions without suffix never read the clock: on a stream
    whose expressions all are without suffix the pipe yields the same
    whatever the clock shows and however often it has been read, and
    leaves the clock as it was. *)
Theorem datebuilder_table_dates_ignore_clock {Kwargs : Type}
    (clock clock' : nat → Datetime.datetime)
    (get_value : value → record → Kwargs → result value)
    (formats : list string)
    (strptime : string → string → result Datetime.datetime)
    (SWITCH : gmap string PipeDateBuilder.pyobj)
    (_INPUT : list record) (conf : record) (kwargs : Kwargs) (d : value)
    (n n' : nat) :
  conf !! "DATE" = Some d →
  Forall (λ item, ∃ s, get_value d item kwargs = Ok (VStr s)
                       ∧ PipeDateBuilder.has_day_suffix (lower s) = false
                       ∧ PipeDateBuilder.has_year_suffix (lower s) = false)
    _INPUT →
  PipeDateBuilder.pipe_datebuilder clock get_value formats strptime SWITCH
    _INPUT conf kwargs n
  = ((PipeDateBuilder.pipe_datebuilder clock' get_value formats strptime SWITCH
        _INPUT conf kwargs n').1, n).
Proof.
  intros Hconf Hall. unfold PipeDateBuilder.pipe_datebuilder.
  induction Hall as [|item items (s & Hget & Hday & Hyear) _ IH]; [done|].
  simpl.
  rewrite (build_date_keyword clock get_value formats strptime SWITCH conf item
             kwargs d s Hconf Hget n Hday Hyear).
  rewrite (build_date_keyword clock' get_value formats strptime SWITCH conf item
             kwargs d s Hconf Hget n' Hday Hyear).
  destruct (PipeDateBuilder.call_timetuple (SWITCH !! lower s)); simpl; [|done].
  rewrite IH.
  by destruct (PipeDateBuilder.datebuilder_loop clock' _ _ _ _ _ _ _ n').
Qed.

Lemma datebuilder_table_dates_ignore_clock_witness :
  let conf : record := {[ "DATE" := VStr "Today" ]} in
  PipeDateBuilder.pipe_datebuilder example_clock example_get_value []
    example_strptime example_SWITCH [∅; ∅] conf () 4%nat
  = ((PipeDateBuilder.pipe_datebuilder
        (λ _, Datetime.Datetime 1999 12 31 23 59 59 0) example_get_value []
        example_strptime example_SWITCH [∅; ∅] conf () 0%nat).1, 4%nat).
Proof.
  intros conf.
  refine (datebuilder_table_dates_ignore_clock example_clock _ example_get_value
            [] example_strptime example_SWITCH [∅; ∅] conf () (VStr "Today")
            4%nat 0%nat eq_refl _).
  repeat constructor; exists "Today"; by split_and!.
Defined.

(** X15. An expression with a day or a year suffix whose first word
    is no integer stops the pipe with [ValueError], before the clock
    is read. *)
Theorem datebuilder_count_not_integer {Kwargs : Type}
    (clock : nat → Datetime.datetime)
    (get_value : value → record → Kwargs → result value)
    (formats : list string)
    (strptime : string → string → result Datetime.datetime)
    (SWITCH : gmap string PipeDateBuilder.pyobj)
    (conf item : record) (rest : list record) (kwargs : Kwargs)
    (d : value) (s : string) (n : nat) :
  conf !! "DATE" = Some d →
  get_value d item kwargs = Ok (VStr s) →
  PipeDateBuilder.has_day_suffix (lower s)
  || PipeDateBuilder.has_year_suffix (lower s) = true →
  (∀ N, int (VStr (split_space_first (lower s))) ≠ Ok N) →
  PipeDateBuilder.pipe_datebuilder clock get_value formats strptime SWITCH
    (item :: rest) conf kwargs n
  = (Trace [] (Some ValueError), n).
Proof.
  intros Hconf Hget Hsuf Hint.
  destruct (int (VStr (split_space_first (lower s)))) as [N|e] eqn:He;
    [by destruct (Hint N)|].
  pose proof (int_str_error _ _ He) as ->.
  apply (datebuilder_loop_raise clock get_value formats strptime).
  by apply (build_date_count_error clock get_value formats strptime SWITCH
              conf item kwargs d s).
Qed.

Lemma datebuilder_count_not_integer_witness :
  example_datebuilder "three days" = (Trace [] (Some ValueError), 4%nat)
  ∧ example_datebuilder " years" = (Trace [] (Some ValueError), 4%nat).
Proof.
  split.
  - refine (datebuilder_count_not_integer example_clock example_get_value
              ["%Y-%m-%d"] example_strptime example_SWITCH
              {[ "DATE" := VStr "three days" ]} ∅ [] () (VStr "three days")
              "three days" 4%nat eq_refl eq_refl eq_refl _).
    intros N. discriminate.
  - refine (datebuilder_count_not_integer example_clock example_get_value
              ["%Y-%m-%d"] example_strptime example_SWITCH
              {[ "DATE" := VStr " years" ]} ∅ [] () (VStr " years")
              " years" 4%nat eq_refl eq_refl eq_refl _).
    intros N. discriminate.
Defined.



(** X17. The day suffix cannot leave the calendar: when the count is
    beyond 999999999 days either way, or the date asked for is before
    0001-01-01 or after 9999-12-31, the pipe stops with
    [OverflowError], the clock having been read once. *)
Theorem datebuilder_day_out_of_range {Kwargs : Type}
    (clock : nat → Datetime.datetime)
    (get_value : value → record → Kwargs → result value)
    (formats : list string)
    (strptime : string → string → result Datetime.datetime)
    (SWITCH : gmap string PipeDateBuilder.pyobj)
    (conf item : record) (rest : list record) (kwargs : Kwargs)
    (d : value) (s : string) (n : nat) (N : Z) :
  conf !! "DATE" = Some d →
  get_value d item kwargs = Ok (VStr s) →
  PipeDateBuilder.has_day_suffix (lower s) = true →
  int (VStr (split_space_first (lower s))) = Ok N →
  999999999 < Z.abs N
  ∨ Datetime.toordinal (clock n) + N < 1
  ∨ Datetime.MAXORDINAL < Datetime.toordinal (clock n) + N →
  PipeDateBuilder.pipe_datebuilder clock get_value formats strptime SWITCH
    (item :: rest) conf kwargs n
  = (Trace [] (Some OverflowError), S n).
Proof.
  intros Hconf Hget Hday Hint Hbad.
  apply (datebuilder_loop_raise clock get_value formats strptime).
  rewrite (build_date_days clock get_value formats strptime SWITCH conf item
             kwargs d s Hconf Hget n N Hday Hint).
  by rewrite add_days_overflow.
Qed.

Lemma datebuilder_day_out_of_range_witness :
  example_datebuilder "-800000 days" = (Trace [] (Some OverflowError), 5%nat).
Proof.
  refine (datebuilder_day_out_of_range example_clock example_get_value
            ["%Y-%m-%d"] example_strptime example_SWITCH
            {[ "DATE" := VStr "-800000 days" ]} ∅ [] ()
            (VStr "-800000 days") "-800000 days" 4%nat (-800000)
            eq_refl eq_refl eq_refl eq_refl _).
  right. left. by vm_compute.
Defined.

(** X18. The table can be made exactly when the day after the second
    reading of the clock and the day before the third are dates of
    the calendar; loading the module on 9999-12-31 or on 0001-01-01
    fails with [OverflowError].  When it is made, the clock has been
    read four times. *)
Theorem SWITCH_init_loads (clock : nat → Datetime.datetime) (m : nat) :
  let tomorrow := Datetime.toordinal (clock (S m)) + 1 in
  let yesterday := Datetime.toordinal (clock (S (S m))) - 1 in
  ((∃ SWITCH, PipeDateBuilder.SWITCH_init clock m = (Ok SWITCH, (4 + m)%nat))
   ↔ 1 ≤ tomorrow ≤ Datetime.MAXORDINAL ∧ 1 ≤ yesterday ≤ Datetime.MAXORDINAL)
  ∧ (¬ (1 ≤ tomorrow ≤ Datetime.MAXORDINAL
        ∧ 1 ≤ yesterday ≤ Datetime.MAXORDINAL) →
     ∃ m', PipeDateBuilder.SWITCH_init clock m = (Raise OverflowError, m')).
Proof.
  intros tomorrow yesterday. subst tomorrow yesterday.
  unfold PipeDateBuilder.SWITCH_init, PipeDateBuilder.cbind,
    PipeDateBuilder.lift, PipeDateBuilder.today, PipeDateBuilder.now,
    PipeDateBuilder.cret.
  destruct (decide (1 ≤ Datetime.toordinal (clock (S m)) + 1
                    ≤ Datetime.MAXORDINAL)) as [H1|H1].
  - destruct (add_days_ok (clock (S m)) 1 ltac:(lia) H1) as [t1 ->].
    destruct (decide (1 ≤ Datetime.toordinal (clock (S (S m))) - 1
                      ≤ Datetime.MAXORDINAL)) as [H2|H2].
    + destruct (add_days_ok (clock (S (S m))) (-1) ltac:(lia) H2) as [t2 ->].
      split; [|tauto]. split; [done|]. intros _. eauto.
    + rewrite (add_days_overflow (clock (S (S m))) (-1)) by lia.
      split; [|eauto]. split; [by intros [? ?]|tauto].
  - rewrite (add_days_overflow (clock (S m)) 1) by lia.
    split; [|eauto]. split; [by intros [? ?]|tauto].
Qed.

Lemma SWITCH_init_loads_witness :
  ∃ m', PipeDateBuilder.SWITCH_init (λ _, Datetime.Datetime 9999 12 31 8 0 0 0)
          0%nat
        = (Raise OverflowError, m').
Proof.
  refine (proj2 (SWITCH_init_loads (λ _, Datetime.Datetime 9999 12 31 8 0 0 0)
                   0%nat) _).
  vm_compute. intros [[_ H] _]. by apply H.
Defined.

(** ** The RSS item builder, further *)

Section rss_more.
Import DotDict PipeRssItemBuilder.
Implicit Types (d : record) (p q : list string) (v w : value).

Lemma set_path_insert d k ks v :
  set_path d (k :: ks) v
  = <[k := match ks with
           | [] => v
           | _ :: _ => VDict (set_path match d !! k with
                                       | Some (VDict d') => d'
                                       | _ => ∅
                                       end ks v)
           end]> d.
Proof. by destruct ks. Qed.

(** Assignments at two paths, neither of which leads through the
    other, can be made in either order. *)
Lemma set_path_commute d p q v w :
  independent p q →
  set_path (set_path d p v) q w = set_path (set_path d q w) p v.
Proof.
  revert d q. induction p as [|k ps IH]; intros d q [Hpq Hqp].
  { destruct Hpq. apply prefix_nil. }
  destruct q as [|k' qs]; [destruct Hqp; apply prefix_nil|].
  destruct (decide (k = k')) as [<-|Hne].
  - destruct ps as [|k1 ps]; [destruct Hpq; apply prefix_cons, prefix_nil|].
    destruct qs as [|k2 qs]; [destruct Hqp; apply prefix_cons, prefix_nil|].
    rewrite (set_path_insert d k (k1 :: ps)), (set_path_insert d k (k2 :: qs)).
    rewrite (set_path_insert (<[k:=_]> d) k (k2 :: qs)).
    rewrite (set_path_insert (<[k:=_]> d) k (k1 :: ps)).
    rewrite !lookup_insert_eq, !insert_insert_eq.
    do 2 f_equal. apply IH.
    split; intros Hpre; [apply Hpq|apply Hqp]; by apply prefix_cons.
  - rewrite (set_path_insert d k ps), (set_path_insert d k' qs).
    rewrite (set_path_insert (<[k:=_]> d) k' qs).
    rewrite (set_path_insert (<[k':=_]> d) k ps).
    rewrite !lookup_insert_ne by done.
    by apply insert_insert_ne.
Qed.

(** The keys of a record after an assignment. *)
Lemma set_path_keys d p v key :
  is_Some (set_path d p v !! key) ↔ is_Some (d !! key) ∨ head p = Some key.
Proof.
  destruct p as [|k ks]; simpl head.
  - simpl. naive_solver.
  - rewrite set_path_insert, lookup_insert_is_Some. split.
    + intros [->|[_ H]]; eauto.
    + intros [H|[= ->]]; [|by left].
      destruct (decide (k = key)); [by left|by right].
Qed.

Lemma fold_set_path_keys (l : list (string * value)) d key :
  is_Some (fold_left (λ d kv, set_path d (split_dot kv.1) kv.2) l d !! key)
  ↔ is_Some (d !! key) ∨ ∃ kv, kv ∈ l ∧ head (split_dot kv.1) = Some key.
Proof.
  revert d. induction l as [|kv l IH]; intros d; simpl.
  - split; [by left|]. intros [H|(kv & Hin & _)]; [done|].
    by apply elem_of_nil in Hin.
  - rewrite IH, set_path_keys. split.
    + intros [[H|H]|(kv' & Hin & H)]; [by left|right..].
      * exists kv. split; [by left|done].
      * exists kv'. split; [by right|done].
    + intros [H|(kv' & Hin & H)]; [by left; left|].
      apply elem_of_cons in Hin as [->|Hin]; [by left; right|].
      right. by exists kv'.
Qed.

(** Assignments at paths of which no two meet give the same record
    in any order. *)
Lemma fold_set_path_perm (l l' : list (string * value)) d :
  l ≡ₚ l' →
  NoDup l.*1 →
  (∀ a b, a ∈ l.*1 → b ∈ l.*1 → a ≠ b →
          independent (split_dot a) (split_dot b)) →
  fold_left (λ d kv, set_path d (split_dot kv.1) kv.2) l d
  = fold_left (λ d kv, set_path d (split_dot kv.1) kv.2) l' d.
Proof.
  intros Hperm. revert d.
  induction Hperm as [|x l l' Hperm IH|x y l|l l' l'' H1 IH1 H2 IH2];
    intros d Hnd Hind.
  - done.
  - simpl. rewrite fmap_cons in Hnd, Hind.
    apply NoDup_cons in Hnd as [_ Hnd]. apply IH; [done|].
    intros a b Ha Hb. apply Hind; by right.
  - simpl. f_equal. rewrite !fmap_cons in Hnd, Hind.
    apply NoDup_cons in Hnd as [Hy _].
    apply set_path_commute, Hind; [set_solver|set_solver|].
    intros Heq. apply Hy. rewrite Heq. by left.
  - rewrite IH1 by done. apply IH2.
    + by rewrite <- H1.
    + intros a b Ha Hb. apply Hind; by rewrite H1.
Qed.

(** The targets of two different documented keys never meet. *)
Lemma documented_keys_independent k k' :
  k ∈ documented_keys → k' ∈ documented_keys → k ≠ k' →
  independent (split_dot (RSS_get k)) (split_dot (RSS_get k')).
Proof.
  assert (Forall (λ a, Forall (λ b, a = b ∨ independent
                                               (split_dot (RSS_get a))
                                               (split_dot (RSS_get b)))
                         documented_keys) documented_keys) as Hall.
  { apply (bool_decide_unpack _). by vm_compute. }
  intros Hk Hk' Hne. rewrite Forall_forall in Hall.
  specialize (Hall k Hk). rewrite Forall_forall in Hall.
  by destruct (Hall k' Hk').
Qed.

Lemma RSS_get_documented_inj k k' :
  k ∈ documented_keys → k' ∈ documented_keys →
  RSS_get k = RSS_get k' → k = k'.
Proof.
  intros Hk Hk' Heq. destruct (decide (k = k')) as [|Hne]; [done|].
  destruct (documented_keys_independent k k' Hk Hk' Hne) as [Hpre _].
  destruct Hpre. by rewrite Heq.
Qed.
End rss_more.

Lemma renamed_targets (item : record) (objconf : list (string * string)) :
  ((λ kv, (PipeRssItemBuilder.RSS_get kv.1,
           PipeRssItemBuilder.item_get item kv.2)) <$> objconf).*1
  = PipeRssItemBuilder.RSS_get <$> objconf.*1.
Proof. induction objconf as [|kv l IH]; [done|]. simpl. by f_equal. Qed.

(** X19. The targets of the documented keys never meet: for a
    configuration whose keys are different documented keys, in
    whatever order its entries come, the record built holds at the
    renamed key of every entry the resolved value of that entry. *)
Theorem rss_parser_documented_keys (item : record)
    (objconf : list (string * string)) (kwargs : gmap string value) :
  NoDup objconf.*1 →
  Forall (λ kv, kv.1 ∈ documented_keys) objconf →
  ∃ feed : record,
    PipeRssItemBuilder.parser item objconf false kwargs = Ok (VDict feed, false)
    ∧ ∀ k v, (k, v) ∈ objconf →
        DotDict.lookup_path (VDict feed)
          (split_dot (PipeRssItemBuilder.RSS_get k))
        = Some (PipeRssItemBuilder.resolve_ref item v).
Proof.
  intros Hnd Hdoc. eexists. split; [reflexivity|].
  intros k v Hin.
  apply list_elem_of_split in Hin as (before & after & ->).
  rewrite fmap_app, fmap_cons.
  change (PipeRssItemBuilder.item_get item (k, v).2)
    with (PipeRssItemBuilder.resolve_ref item v).
  apply construct_lookup. apply Forall_fmap.
  rewrite fmap_app, fmap_cons in Hnd.
  apply NoDup_app in Hnd as (_ & _ & Hnd). apply NoDup_cons in Hnd as [Hk _].
  apply Forall_app in Hdoc as [_ Hdoc].
  apply Forall_cons in Hdoc as [Hkdoc Hdoc].
  apply Forall_forall. intros [k' v'] Hin'. simpl.
  rewrite Forall_forall in Hdoc.
  apply documented_keys_independent; [done|by apply (Hdoc (k', v'))|].
  intros ->. apply Hk. apply list_elem_of_fmap. by exists (k', v').
Qed.

Lemma rss_parser_documented_keys_witness :
  ∃ feed : record,
    PipeRssItemBuilder.parser example_item
      [("mediaThumbHeight", "40"); ("guid", "id"); ("mediaThumbURL", "thumbnail")]
      false ∅
    = Ok (VDict feed, false)
    ∧ DotDict.lookup_path (VDict feed) ["media:thumbnail"; "height"]
      = Some (VStr "40")
    ∧ DotDict.lookup_path (VDict feed) ["media:thumbnail"; "url"]
      = Some (VStr "image.png").
Proof.
  destruct (rss_parser_documented_keys example_item
              [("mediaThumbHeight", "40"); ("guid", "id");
               ("mediaThumbURL", "thumbnail")] ∅)
    as (feed & Hrun & Hfeed).
  - apply (bool_decide_unpack _). by vm_compute.
  - apply (bool_decide_unpack _). by vm_compute.
  - exists feed. split; [exact Hrun|]. split.
    + apply (Hfeed "mediaThumbHeight" "40"). by left.
    + apply (Hfeed "mediaThumbURL" "thumbnail"). right. right. by left.
Defined.

(** X20. The record built has the keys the configuration asks for
    and no other: its keys are the first parts of the renamed keys of
    the entries, so nothing of the item is carried over unasked and an
    empty configuration gives an empty record. *)
Theorem rss_parser_only_configured_keys (item : record)
    (objconf : list (string * string)) (kwargs : gmap string value) :
  ∃ feed : record,
    PipeRssItemBuilder.parser item objconf false kwargs = Ok (VDict feed, false)
    ∧ ∀ key, is_Some (feed !! key)
             ↔ ∃ k v, (k, v) ∈ objconf
                      ∧ head (split_dot (PipeRssItemBuilder.RSS_get k))
                        = Some key.
Proof.
  eexists. split; [reflexivity|]. intros key.
  unfold DotDict.construct. rewrite fold_set_path_keys, lookup_empty. split.
  - intros [[? [=]]|([k' x] & Hin & Hhead)].
    apply list_elem_of_fmap in Hin as ([k v] & [= -> ->] & Hin). eauto.
  - intros (k & v & Hin & Hhead). right.
    exists (PipeRssItemBuilder.RSS_get k, PipeRssItemBuilder.item_get item v).
    split; [|done]. apply list_elem_of_fmap. by exists (k, v).
Qed.

(** X21. The record built does not depend on the order in which the
    dictionary gives the entries of the configuration, when the
    renamed keys are all different and no one leads through another;
    so it is for every configuration whose keys are different
    documented keys. *)
Theorem rss_parser_any_order (item : record)
    (objconf objconf' : list (string * string)) (kwargs : gmap string value) :
  objconf ≡ₚ objconf' →
  (NoDup (PipeRssItemBuilder.RSS_get <$> objconf.*1) →
   (∀ a b, a ∈ PipeRssItemBuilder.RSS_get <$> objconf.*1 →
           b ∈ PipeRssItemBuilder.RSS_get <$> objconf.*1 → a ≠ b →
           PipeRssItemBuilder.independent (split_dot a) (split_dot b)) →
   PipeRssItemBuilder.parser item objconf false kwargs
   = PipeRssItemBuilder.parser item objconf' false kwargs)
  ∧ (NoDup objconf.*1 →
     Forall (λ kv, kv.1 ∈ documented_keys) objconf →
     PipeRssItemBuilder.parser item objconf false kwargs
     = PipeRssItemBuilder.parser item objconf' false kwargs).
Proof.
  intros Hperm.
  assert (NoDup (PipeRssItemBuilder.RSS_get <$> objconf.*1) →
          (∀ a b, a ∈ PipeRssItemBuilder.RSS_get <$> objconf.*1 →
                  b ∈ PipeRssItemBuilder.RSS_get <$> objconf.*1 → a ≠ b →
                  PipeRssItemBuilder.independent (split_dot a) (split_dot b)) →
          PipeRssItemBuilder.parser item objconf false kwargs
          = PipeRssItemBuilder.parser item objconf' false kwargs) as Hgen.
  { intros Hnd Hind. unfold PipeRssItemBuilder.parser. simpl.
    do 3 f_equal. unfold DotDict.construct.
    apply fold_set_path_perm.
    - by apply fmap_Permutation.
    - by rewrite renamed_targets.
    - by rewrite renamed_targets. }
  split; [exact Hgen|].
  intros Hnd Hdoc. rewrite Forall_forall in Hdoc.
  assert (∀ k, k ∈ objconf.*1 → k ∈ documented_keys) as Hdoc'.
  { intros k ([k' v] & -> & Hin)%list_elem_of_fmap. by apply (Hdoc (k', v)). }
  apply Hgen.
  - apply NoDup_fmap_2_strong; [|done].
    intros a b Ha Hb. apply RSS_get_documented_inj; by apply Hdoc'.
  - intros a b (k & -> & Hk)%list_elem_of_fmap (k' & -> & Hk')%list_elem_of_fmap
      Hne.
    apply documented_keys_independent; [by apply Hdoc'|by apply Hdoc'|].
    by intros ->.
Qed.

Lemma rss_parser_any_order_witness :
  PipeRssItemBuilder.parser example_item
    [("guid", "id"); ("mediaThumbURL", "thumbnail"); ("mediaThumbHeight", "40")]
    false ∅
  = PipeRssItemBuilder.parser example_item
      [("mediaThumbHeight", "40"); ("guid", "id"); ("mediaThumbURL", "thumbnail")]
      false ∅.
Proof.
  refine (proj2 (rss_parser_any_order example_item
            [("guid", "id"); ("mediaThumbURL", "thumbnail");
             ("mediaThumbHeight", "40")]
            [("mediaThumbHeight", "40"); ("guid", "id");
             ("mediaThumbURL", "thumbnail")] ∅ _) _ _).
  - apply (bool_decide_unpack _). by vm_compute.
  - apply (bool_decide_unpack _). by vm_compute.
  - apply (bool_decide_unpack _). by vm_compute.
Defined.
